(** * Movilrecetas-app: the chat use case and its hook

    A shallow embedding of
      - [src/domain/useCases/chat/ChatUseCase.ts] (class [ChatUseCase]) and
      - [src/presentation/hooks/useChat.ts] (hook [useChat]),
    followed by the properties of the typing-presence aggregator, of the
    message relay and of the send / fetch paths.

    Conventions of the embedding.
      - [Date.now()] is an integer number of milliseconds: a [Z] handed to
        the code by whoever runs it.
      - The text typed by the user is a sequence of UTF-16 code units
        ([cadena]), because [String.prototype.trim] is defined on them;
        identifiers, e-mail addresses and fixed literals are byte strings.
      - A JS [Map] is an association list in insertion order, which is the
        order [Map.prototype.keys] and [forEach] follow.
      - The hosted backend is not part of the repository: every call to it
        is answered by an oracle stored in the world ([Mundo]) and logged in
        [peticiones]; what was printed goes to [consola].
      - A callback handed to the typing subscription is observed through the
        list of arguments it was invoked with. *)

From Stdlib Require Import List String ZArith NArith Bool Lia.
From Stdlib Require Import Sorting.Sorted Sorting.Permutation.
Import ListNotations.
Local Open Scope string_scope.
Local Open Scope list_scope.
Local Open Scope Z_scope.

(* ===================================================================== *)
(** ** JavaScript values used by the chat code *)
(* ===================================================================== *)

Module JS.

(** A JS string as its UTF-16 code units. *)
Definition cadena := list N.

Definition de_ascii (s : string) : cadena :=
  List.map Ascii.N_of_ascii (list_ascii_of_string s).

(** WhiteSpace and LineTerminator of ECMA-262, the code units that
    [trim] strips: TAB LF VT FF CR, SP, NBSP, U+1680, U+2000..U+200A,
    U+2028, U+2029, U+202F, U+205F, U+3000 and U+FEFF. *)
Definition es_espacio (c : N) : bool :=
  (((9 <=? c) && (c <=? 13)) || (c =? 32) || (c =? 160) || (c =? 5760)
   || ((8192 <=? c) && (c <=? 8202)) || (c =? 8232) || (c =? 8233)
   || (c =? 8239) || (c =? 8287) || (c =? 12288) || (c =? 65279))%N.

Fixpoint trimStart (s : cadena) : cadena :=
  match s with
  | [] => []
  | c :: r => if es_espacio c then trimStart r else s
  end.

Definition trimEnd (s : cadena) : cadena := rev (trimStart (rev s)).

Definition trim (s : cadena) : cadena := trimEnd (trimStart s).

(** [!s] for a string: only the empty string is falsy. *)
Definition no (s : cadena) : bool :=
  match s with [] => true | _ :: _ => false end.

(** [Map<string, number>], in insertion order. *)
Definition Mapa := list (string * Z).

(** [m.set(k, v)]: an existing key keeps its position. *)
Fixpoint map_set (k : string) (v : Z) (m : Mapa) : Mapa :=
  match m with
  | [] => [(k, v)]
  | (k', v') :: r =>
      if String.eqb k' k then (k, v) :: r else (k', v') :: map_set k v r
  end.

(** [m.delete(k)]. *)
Definition map_delete (k : string) (m : Mapa) : Mapa :=
  filter (fun p => negb (String.eqb (fst p) k)) m.

(** [Array.from(m.keys())]. *)
Definition map_keys (m : Mapa) : list string := List.map fst m.

(** [m.has(k)]. *)
Definition map_has (k : string) (m : Mapa) : bool :=
  existsb (fun p => String.eqb (fst p) k) m.

End JS.
Import JS.

(* ===================================================================== *)
(** ** [ChatUseCase.suscribirseAEscritura]: the typing-presence aggregator *)
(* ===================================================================== *)

Module Escritura.

(** One call of [suscribirseAEscritura], as its handler and its sweep see
    it: the map [usuariosEscritura] of the closure, [channelEscritura]
    ([true] while the channel the handler was registered on is subscribed
    on the client) and the handle [limpiarInterval] of the timer
    ([Some periodo] while it is armed, [None] once [clearInterval] ran).
    The field [this.channelEscritura], which every subscription on the
    use case shares, and the teardown are in [EscrituraObjeto]. *)
Record Suscripcion := mkSuscripcion {
  usuariosEscritura : Mapa;
  channelEscritura : bool;
  limpiarInterval : option Z
}.

(** The arguments the callback was invoked with, oldest first. *)
Definition Llamadas := list (list string).

Definition con_mapa (m : Mapa) (s : Suscripcion) : Suscripcion :=
  mkSuscripcion m (channelEscritura s) (limpiarInterval s).

(** [ahora - timestamp > 3000]. *)
Definition inactivo (ahora : Z) (p : string * Z) : bool :=
  ahora - snd p >? 3000.

(** The body of [usuariosEscritura.forEach] in [limpiarInactivos]: the
    accumulator is the map and the flag [cambio]. *)
Definition visitar (ahora : Z) (acc : Mapa * bool) (p : string * Z)
  : Mapa * bool :=
  let '(userId, timestamp) := p in
  if ahora - timestamp >? 3000
  then (map_delete userId (fst acc), true)
  else acc.

(** [limpiarInactivos], run at [Date.now() = ahora].  [forEach] visits the
    entries that are in the map when it reaches them; an entry deleted by
    its own visit is not visited again, so the visit order is that of the
    map as it was when the sweep started. *)
Definition limpiarInactivos (ahora : Z) (s : Suscripcion)
  : Suscripcion * Llamadas :=
  let '(m, cambio) :=
    fold_left (visitar ahora) (usuariosEscritura s)
              (usuariosEscritura s, false) in
  (con_mapa m s, if cambio then [map_keys m] else []).

(** The handler registered for INSERT on [indicadores_escritura], run at
    [Date.now() = timestamp] on a payload whose [new.usuario_id] is
    [userId]. *)
Definition alInsertar (userId : string) (timestamp : Z) (s : Suscripcion)
  : Suscripcion * Llamadas :=
  let m := map_set userId timestamp (usuariosEscritura s) in
  (con_mapa m s, [map_keys m]).

(** [suscribirseAEscritura]: a fresh map, the channel subscribed and
    [setInterval(limpiarInactivos, 1000)]. *)
Definition suscribirseAEscritura : Suscripcion :=
  mkSuscripcion [] true (Some 1000).

(** What the runtime can deliver to a subscription: an INSERT pushed by
    the feed, or a firing of the interval timer; each carries the value
    [Date.now()] has while it is handled. *)
Inductive evento :=
| Insert (userId : string) (ahora : Z)
| Tic (ahora : Z).

Definition momento (ev : evento) : Z :=
  match ev with Insert _ t => t | Tic t => t end.

(** Dispatch by the runtime: a removed channel receives nothing and a
    cleared interval does not fire. *)
Definition entregar (ev : evento) (s : Suscripcion)
  : Suscripcion * Llamadas :=
  match ev with
  | Insert userId ahora =>
      if channelEscritura s then alInsertar userId ahora s else (s, [])
  | Tic ahora =>
      match limpiarInterval s with
      | Some _ => limpiarInactivos ahora s
      | None => (s, [])
      end
  end.

Fixpoint ejecutar (evs : list evento) (s : Suscripcion)
  : Suscripcion * Llamadas :=
  match evs with
  | [] => (s, [])
  | ev :: r =>
      let '(s1, l1) := entregar ev s in
      let '(s2, l2) := ejecutar r s1 in
      (s2, l1 ++ l2)
  end.

(** The clock does not run backwards along a run. *)
Fixpoint cronologico_desde (t : Z) (evs : list evento) : bool :=
  match evs with
  | [] => true
  | ev :: r => (t <=? momento ev) && cronologico_desde (momento ev) r
  end.

Definition cronologico (evs : list evento) : bool :=
  match evs with
  | [] => true
  | ev :: r => cronologico_desde (momento ev) r
  end.

(** The time of the most recent typing event of [u] in a run. *)
Fixpoint ultimo_evento (u : string) (evs : list evento) : option Z :=
  match evs with
  | [] => None
  | ev :: r =>
      match ultimo_evento u r with
      | Some t => Some t
      | None =>
          match ev with
          | Insert u' t => if String.eqb u' u then Some t else None
          | Tic _ => None
          end
      end
  end.

(** The time of the most recent sweep in a run. *)
Fixpoint ultimo_barrido (evs : list evento) : option Z :=
  match evs with
  | [] => None
  | ev :: r =>
      match ultimo_barrido r with
      | Some t => Some t
      | None => match ev with Tic t => Some t | Insert _ _ => None end
      end
  end.

End Escritura.

(* ===================================================================== *)
(** ** Effects: the backend client, the console and the React state *)
(* ===================================================================== *)

Module Efectos.

(** A thrown or returned error; the code reads only [error.message]. *)
Record ErrorJS := mkError { message : string }.

(** [data.user] of [supabase.auth.getUser()]; the code reads [user.id]. *)
Record User := mkUser { user_id : string }.

(** The joined [usuarios!fk_usuario(email, rol)]. *)
Record Autor := mkAutor { email : string; rol : string }.

(** A row answered by a select on [mensajes] with the join. *)
Record Fila := mkFila {
  fila_id : string;
  fila_contenido : cadena;
  fila_usuario_id : string;
  fila_created_at : Z;
  fila_usuarios : option Autor
}.

(** [payload.new] of an INSERT on [mensajes]: the raw row, no join. *)
Record Payload := mkPayload {
  new_id : string;
  new_contenido : cadena;
  new_usuario_id : string;
  new_created_at : Z
}.

(** [Mensaje] as the code fills it.  [usuarios] is the property the
    spread [...msg] carries along in [obtenerMensajes]; the relay does not
    set it. *)
Record Mensaje := mkMensaje {
  id : string;
  contenido : cadena;
  usuario_id : string;
  created_at : Z;
  usuarios : option Autor;
  usuario : option Autor
}.

(** [{ success, error? }]. *)
Record Envio := mkEnvio { success : bool; error : option string }.

(** How an awaited call of the client ends: it resolves to
    [{ data, error }], or it rejects. *)
Inductive Llamada (A : Type) :=
| Responde (data : A) (err : option ErrorJS)
| Rechaza (e : ErrorJS).
Arguments Responde {A} data err.
Arguments Rechaza {A} e.

(** The answers of the hosted backend, one oracle per call the code
    makes. *)
Record Backend := mkBackend {
  auth_getUser : Llamada (option User);
  select_recientes : Z -> Llamada (option (list Fila));
  select_por_id : string -> Llamada (option Fila);
  insert_mensaje : cadena -> string -> Llamada unit;
  insert_escritura : string -> Llamada unit
}.

(** The requests sent to the backend. *)
Inductive Peticion :=
| GetUser
| SelectRecientes (limite : Z)
| SelectPorId (mensajeId : string)
| InsertMensaje (contenido : cadena) (usuario_id : string)
| InsertEscritura (usuario_id : string).

(** The [useState] cells and the ref of [useChat]; [typingTimeoutRef] is
    [true] while it holds a timer. *)
Record Hook := mkHook {
  mensajes : list Mensaje;
  cargando : bool;
  enviando : bool;
  usuariosEscribiendo : list string;
  inputTexto : cadena;
  typingTimeoutRef : bool
}.

Record Mundo := mkMundo {
  backend : Backend;
  peticiones : list Peticion;   (* oldest first *)
  consola : list string;        (* oldest first *)
  hook : Hook
}.

Inductive Resultado (A : Type) :=
| Valor (a : A)
| Lanzado (e : ErrorJS).
Arguments Valor {A} a.
Arguments Lanzado {A} e.

(** An [async] computation: it returns or throws, and what it did to the
    world stays done either way. *)
Definition M (A : Type) := Mundo -> Resultado A * Mundo.

Definition ret {A} (a : A) : M A := fun w => (Valor a, w).

Definition bind {A B} (c : M A) (k : A -> M B) : M B :=
  fun w =>
    match c w with
    | (Valor a, w1) => k a w1
    | (Lanzado e, w1) => (Lanzado e, w1)
    end.

Definition lanzar {A} (e : ErrorJS) : M A := fun w => (Lanzado e, w).

(** [try { c } catch (e) { h e }]. *)
Definition intentar {A} (c : M A) (h : ErrorJS -> M A) : M A :=
  fun w =>
    match c w with
    | (Valor a, w1) => (Valor a, w1)
    | (Lanzado e, w1) => h e w1
    end.

Definition registrar (p : Peticion) (w : Mundo) : Mundo :=
  mkMundo (backend w) (peticiones w ++ [p]) (consola w) (hook w).

Definition imprimir (s : string) (w : Mundo) : Mundo :=
  mkMundo (backend w) (peticiones w) (consola w ++ [s]) (hook w).

Definition con_hook (f : Hook -> Hook) (w : Mundo) : Mundo :=
  mkMundo (backend w) (peticiones w) (consola w) (f (hook w)).

(** [await] of a call of the client. *)
Definition esperar {A} (p : Peticion) (r : Backend -> Llamada A)
  : M (A * option ErrorJS) :=
  fun w =>
    match r (backend w) with
    | Responde data err => (Valor (data, err), registrar p w)
    | Rechaza e => (Lanzado e, registrar p w)
    end.

(** [console.log] and [console.error]; the first argument is kept. *)
Definition console_log (s : string) : M unit :=
  fun w => (Valor tt, imprimir s w).
Definition console_error (s : string) : M unit :=
  fun w => (Valor tt, imprimir s w).

Definition actualizar (f : Hook -> Hook) : M unit :=
  fun w => (Valor tt, con_hook f w).

Declare Scope efecto_scope.
Delimit Scope efecto_scope with efecto.
Notation "x <- c ;; k" := (bind c (fun x => k))
  (at level 61, c at next level, right associativity) : efecto_scope.
Notation "' p <- c ;; k" := (bind c (fun x => let 'p := x in k))
  (at level 61, p pattern, c at next level, right associativity)
  : efecto_scope.
Notation "c ;; k" := (bind c (fun _ => k))
  (at level 61, right associativity) : efecto_scope.

End Efectos.
Import Efectos.

(* ===================================================================== *)
(** ** [ChatUseCase]: messages *)
(* ===================================================================== *)

Module ChatUseCase.
Local Open Scope efecto_scope.

(** [(msg) => ({ ...msg, usuario: msg.usuarios })]. *)
Definition formatear (msg : Fila) : Mensaje :=
  mkMensaje (fila_id msg) (fila_contenido msg) (fila_usuario_id msg)
            (fila_created_at msg) (fila_usuarios msg) (fila_usuarios msg).

(** The default of the parameter [limite]. *)
Definition limite_por_defecto : Z := 50.

Definition obtenerMensajes (limite : Z) : M (list Mensaje) :=
  intentar
    ('(data, err) <- esperar (SelectRecientes limite)
                             (fun b => select_recientes b limite) ;;
     match err with
     | Some e => console_error "Error al obtener mensajes:" ;; lanzar e
     | None =>
         let mensajesFormateados :=
           List.map formatear (match data with Some d => d | None => [] end) in
         ret (rev mensajesFormateados)
     end)
    (fun _ => console_error "Error al obtener mensajes:" ;; ret []).

Definition enviarEventoEscritura (escribiendo : bool) : M unit :=
  intentar
    ('(user, _) <- esperar GetUser auth_getUser ;;
     match user with
     | None =>
         console_log
           "Usuario no autenticado, no se envía evento de escritura."
     | Some u =>
         if escribiendo then
           '(_, err) <- esperar (InsertEscritura (user_id u))
                                (fun b => insert_escritura b (user_id u)) ;;
           match err with
           | Some _ => console_error "Error al enviar evento de escritura:"
           | None => ret tt
           end
         else ret tt
     end)
    (fun _ => console_error "Error al enviar evento de escritura:").

Definition enviarMensaje (contenido : cadena) : M Envio :=
  intentar
    ('(user, _) <- esperar GetUser auth_getUser ;;
     match user with
     | None => ret (mkEnvio false (Some "Usuario no autenticado"))
     | Some u =>
         enviarEventoEscritura false ;;
         '(_, err) <- esperar (InsertMensaje contenido (user_id u))
                        (fun b => insert_mensaje b contenido (user_id u)) ;;
         match err with
         | Some e => lanzar e
         | None => ret (mkEnvio true None)
         end
     end)
    (fun e =>
       console_error "Error al enviar mensaje:" ;;
       ret (mkEnvio false (Some (message e)))).

(** [{ email: 'Desconocido', rol: 'usuario' }]. *)
Definition desconocido : Autor := mkAutor "Desconocido" "usuario".

Definition mensajeFallback (payload : Payload) : Mensaje :=
  mkMensaje (new_id payload) (new_contenido payload)
            (new_usuario_id payload) (new_created_at payload)
            None (Some desconocido).

Definition mensajeFormateado (data : Fila) : Mensaje :=
  mkMensaje (fila_id data) (fila_contenido data) (fila_usuario_id data)
            (fila_created_at data) None
            (Some (match fila_usuarios data with
                   | Some a => a
                   | None => desconocido
                   end)).

(** The handler [suscribirseAMensajes] registers for INSERT on
    [mensajes]; [callback] is the function the subscriber passed. *)
Definition alInsertarMensaje (callback : Mensaje -> M unit)
           (payload : Payload) : M unit :=
  console_log "📨 Nuevo mensaje recibido!" ;;
  intentar
    ('(data, err) <- esperar (SelectPorId (new_id payload))
                       (fun b => select_por_id b (new_id payload)) ;;
     match err with
     | Some _ =>
         console_error "⚠️ Error al obtener mensaje completo:" ;;
         callback (mensajeFallback payload)
     | None =>
         match data with
         | Some d => callback (mensajeFormateado d)
         | None => ret tt
         end
     end)
    (fun _ =>
       console_error "❌ Error inesperado:" ;;
       callback (mensajeFallback payload)).

End ChatUseCase.

(* ===================================================================== *)
(** ** [useChat] *)
(* ===================================================================== *)

Module useChat.
Local Open Scope efecto_scope.

Definition setMensajes (f : list Mensaje -> list Mensaje) : M unit :=
  actualizar (fun h =>
    mkHook (f (mensajes h)) (cargando h) (enviando h)
           (usuariosEscribiendo h) (inputTexto h) (typingTimeoutRef h)).

Definition setCargando (b : bool) : M unit :=
  actualizar (fun h =>
    mkHook (mensajes h) b (enviando h)
           (usuariosEscribiendo h) (inputTexto h) (typingTimeoutRef h)).

Definition setEnviando (b : bool) : M unit :=
  actualizar (fun h =>
    mkHook (mensajes h) (cargando h) b
           (usuariosEscribiendo h) (inputTexto h) (typingTimeoutRef h)).

Definition setInputTexto (s : cadena) : M unit :=
  actualizar (fun h =>
    mkHook (mensajes h) (cargando h) (enviando h)
           (usuariosEscribiendo h) s (typingTimeoutRef h)).

(** [clearTimeout] of the pending timer, if any, and the ref set to
    [null]. *)
Definition detenerEscritura : M unit :=
  actualizar (fun h =>
    mkHook (mensajes h) (cargando h) (enviando h)
           (usuariosEscribiendo h) (inputTexto h) false).

Definition cargarMensajes : M unit :=
  setCargando true ;;
  mensajesObtenidos <-
    ChatUseCase.obtenerMensajes ChatUseCase.limite_por_defecto ;;
  setMensajes (fun _ => mensajesObtenidos) ;;
  setCargando false.

Definition enviarMensaje (contenido : cadena) : M Envio :=
  if JS.no (trim contenido)
  then ret (mkEnvio false (Some "El mensaje está vacío"))
  else
    setEnviando true ;;
    resultado <- ChatUseCase.enviarMensaje contenido ;;
    detenerEscritura ;;
    setEnviando false ;;
    setInputTexto [] ;;
    ret resultado.

(** The updater the message subscription passes to [setMensajes]. *)
Definition agregar (nuevoMensaje : Mensaje) (prev : list Mensaje)
  : list Mensaje :=
  if existsb (fun m => String.eqb (id m) (id nuevoMensaje)) prev
  then prev
  else prev ++ [nuevoMensaje].

(** The callback [useChat] passes to [suscribirseAMensajes]. *)
Definition alNuevoMensaje (nuevoMensaje : Mensaje) : M unit :=
  setMensajes (agregar nuevoMensaje).

End useChat.

(* ===================================================================== *)
(** ** The query contract of the hosted backend *)
(* ===================================================================== *)

Module Servidor.

(** [.order("created_at", { ascending: false })]: newest first. *)
Fixpoint insertar_desc (f : Fila) (l : list Fila) : list Fila :=
  match l with
  | [] => [f]
  | g :: r =>
      if fila_created_at g <? fila_created_at f
      then f :: l
      else g :: insertar_desc f r
  end.

Definition ordenar_desc (tabla : list Fila) : list Fila :=
  fold_right insertar_desc [] tabla.

(** The answer of a backend that holds [tabla] and serves
    [.order("created_at", { ascending: false }).limit(limite)]: the first
    [limite] rows of the table sorted newest first (no row when [limite]
    is not positive). *)
Definition consulta_recientes (tabla : list Fila) (limite : Z)
  : Llamada (option (list Fila)) :=
  Responde (Some (firstn (Z.to_nat limite) (ordenar_desc tabla))) None.

End Servidor.

(* ===================================================================== *)
(** ** Predicates used by the statements *)
(* ===================================================================== *)

(** What holds of a live typing subscription after the run [pre]. *)
Definition vigente (pre : list Escritura.evento) (s : Escritura.Suscripcion)
  : Prop :=
  Escritura.channelEscritura s = true
  /\ Escritura.limpiarInterval s = Some 1000
  /\ NoDup (map_keys (Escritura.usuariosEscritura s))
  /\ forall u ts,
       In (u, ts) (Escritura.usuariosEscritura s) ->
       Escritura.ultimo_evento u pre = Some ts
       /\ forall T, Escritura.ultimo_barrido pre = Some T -> T - ts <= 3000.

(** Newest first: a row is no older than the rows after it. *)
Definition mas_reciente_primero (a b : Fila) : Prop :=
  fila_created_at b <= fila_created_at a.

(** A call of the client failed: it answered with an error, or threw. *)
Definition fallo {A} (r : Llamada A) : bool :=
  match r with
  | Responde _ (Some _) => true
  | Responde _ None => false
  | Rechaza _ => true
  end.

(** The fetch by identifier answers the row asked for, or fails. *)
Definition atiende_por_id (b : Backend) (i : string) : Prop :=
  match select_por_id b i with
  | Responde (Some d) None => fila_id d = i
  | Responde None None => False
  | _ => True
  end.

(** Number of messages of a list that carry the identifier [i]. *)
Definition veces (i : string) (l : list Mensaje) : nat :=
  List.length (filter (fun m => String.eqb (id m) i) l).

(** The insert requests against [mensajes] found in a request log. *)
Definition inserts_de_mensajes (l : list Peticion) : list Peticion :=
  filter (fun p => match p with InsertMensaje _ _ => true | _ => false end) l.

(** The insert requests against [indicadores_escritura]. *)
Definition inserts_de_escritura (l : list Peticion) : list Peticion :=
  filter (fun p => match p with InsertEscritura _ => true | _ => false end) l.

(* ===================================================================== *)
(** ** Worlds used as examples *)
(* ===================================================================== *)

Module Ejemplos.

Definition hook_inicial : Hook := mkHook [] true false [] [] false.

Definition ana : User := mkUser "u-ana".

Definition fila (i : string) (t : Z) : Fila :=
  mkFila i (de_ascii "hola") "u-ana" t (Some (mkAutor "ana@correo.ec" "chef")).

Definition tabla : list Fila :=
  [fila "m2" 20; fila "m4" 40; fila "m1" 10; fila "m3" 30].

(** A backend that answers every call. *)
Definition servidor (sesion : option User) : Backend :=
  mkBackend (Responde sesion None)
            (Servidor.consulta_recientes tabla)
            (fun i => Responde (Some (fila i 50)) None)
            (fun _ _ => Responde tt None)
            (fun _ => Responde tt None).

(** A backend that cannot be reached, or answers with an error. *)
Definition caido (sesion : option User) : Backend :=
  mkBackend (Responde sesion None)
            (fun _ => Responde None (Some (mkError "timeout")))
            (fun _ => Rechaza (mkError "Network request failed"))
            (fun _ _ => Responde tt (Some (mkError "permission denied")))
            (fun _ => Responde tt (Some (mkError "permission denied"))).

Definition mundo (b : Backend) : Mundo := mkMundo b [] [] hook_inicial.

Definition evento_m9 : Payload := mkPayload "m9" (de_ascii "hola") "u-ana" 90.

End Ejemplos.


(* ===================================================================== *)
(** ** [ChatUseCase]: deletion and the message channel *)
(* ===================================================================== *)

Module ChatUseCaseMas.
Local Open Scope efecto_scope.

(** [await] of a call of the client that [peticiones] does not list. *)
Definition consultar {A} (r : Llamada A) : M (A * option ErrorJS) :=
  fun w =>
    match r with
    | Responde data err => (Valor (data, err), w)
    | Rechaza e => (Lanzado e, w)
    end.

(** [eliminarMensaje]; [delete_mensaje] is what the backend answers to
    [.from("mensajes").delete().eq('id', mensajeId)]. *)
Definition eliminarMensaje (delete_mensaje : string -> Llamada unit)
           (mensajeId : string) : M Envio :=
  intentar
    ('(_, err) <- consultar (delete_mensaje mensajeId) ;;
     match err with
     | Some e => lanzar e
     | None => ret (mkEnvio true None)
     end)
    (fun e =>
       console_error "Error al eliminar mensaje:" ;;
       ret (mkEnvio false (Some (message e)))).

(** The handle of a [RealtimeChannel], as [supabase.channel] returns it. *)
Definition Canal := nat.

(** The field [channelMensajes] of the use case, and the channels the
    client is subscribed on: those whose handler an INSERT reaches. *)
Record Canales := mkCanales {
  channelMensajes : option Canal;
  escuchando : list Canal
}.

(** A use case that never subscribed. *)
Definition sin_canales : Canales := mkCanales None [].

(** [suscribirseAMensajes]: the field takes the channel [canal] the client
    handed out, and the channel is subscribed. *)
Definition suscribirseAMensajes (canal : Canal) (c : Canales) : Canales :=
  mkCanales (Some canal) (escuchando c ++ [canal]).

(** The function [suscribirseAMensajes] returns.  It captures [this] and
    nothing else: the channel it removes is the one the field holds when
    it is called. *)
Definition desuscribirMensajes (c : Canales) : Canales :=
  match channelMensajes c with
  | Some canal => mkCanales None (remove Nat.eq_dec canal (escuchando c))
  | None => c
  end.

(** An INSERT on [mensajes] reaches the handler of every subscribed
    channel; a handler that throws does not stop the others. *)
Fixpoint despachar (callback : Mensaje -> M unit) (payload : Payload)
         (canales : list Canal) : M unit :=
  match canales with
  | [] => ret tt
  | _ :: resto =>
      intentar (ChatUseCase.alInsertarMensaje callback payload)
               (fun _ => ret tt) ;;
      despachar callback payload resto
  end.

End ChatUseCaseMas.

(* ===================================================================== *)
(** ** [useChat]: typing, deletion and the typing callback *)
(* ===================================================================== *)

Module useChatMas.
Local Open Scope efecto_scope.

Definition setUsuariosEscribiendo (userIds : list string) : M unit :=
  actualizar (fun h =>
    mkHook (mensajes h) (cargando h) (enviando h)
           userIds (inputTexto h) (typingTimeoutRef h)).

(** The callback [useChat] passes to [suscribirseAEscritura]. *)
Definition alCambiarEscritura (userIds : list string) : M unit :=
  setUsuariosEscribiendo userIds.

(** The callback run on each list the typing subscription reported. *)
Fixpoint notificar (llamadas : Escritura.Llamadas) : M unit :=
  match llamadas with
  | [] => ret tt
  | userIds :: resto => alCambiarEscritura userIds ;; notificar resto
  end.

(** [iniciarEscritura].  The promise of [enviarEventoEscritura(true)] is
    not awaited; it is run to its end here, before the timer is replaced.
    The timer of 1500 ms does nothing when it lapses, so the ref keeps its
    handle until [detenerEscritura]. *)
Definition iniciarEscritura : M unit :=
  ChatUseCase.enviarEventoEscritura true ;;
  actualizar (fun h =>
    mkHook (mensajes h) (cargando h) (enviando h)
           (usuariosEscribiendo h) (inputTexto h) true).

(** The effect that depends on [inputTexto]. *)
Definition efectoEscritura : M unit :=
  fun w =>
    if negb (JS.no (trim (inputTexto (hook w))))
    then iniciarEscritura w
    else useChat.detenerEscritura w.

(** The exposed [setInputTexto] and the render that follows: a value equal
    to the current one changes nothing, any other value is stored and the
    effect runs. *)
Definition cambiarInput (texto : cadena) : M unit :=
  fun w =>
    if list_eq_dec N.eq_dec (inputTexto (hook w)) texto
    then (Valor tt, w)
    else (useChat.setInputTexto texto ;; efectoEscritura) w.

Fixpoint teclear (textos : list cadena) : M unit :=
  match textos with
  | [] => ret tt
  | texto :: resto => cambiarInput texto ;; teclear resto
  end.

(** [eliminarMensaje] of the hook. *)
Definition eliminarMensaje (delete_mensaje : string -> Llamada unit)
           (mensajeId : string) : M Envio :=
  resultado <- ChatUseCaseMas.eliminarMensaje delete_mensaje mensajeId ;;
  (if success resultado
   then useChat.setMensajes
          (filter (fun m => negb (String.eqb (id m) mensajeId)))
   else ret tt) ;;
  ret resultado.

End useChatMas.

(* ===================================================================== *)
(** ** Counts used by the statements *)
(* ===================================================================== *)

(** The INSERT events of a run. *)
Definition n_inserts (evs : list Escritura.evento) : nat :=
  List.length
    (filter (fun ev => match ev with
                       | Escritura.Insert _ _ => true
                       | Escritura.Tic _ => false
                       end) evs).

(** The changes of the input, starting from [actual], that store a text
    which is not blank. *)
Fixpoint pulsaciones (actual : cadena) (textos : list cadena) : nat :=
  match textos with
  | [] => 0%nat
  | texto :: resto =>
      ((if list_eq_dec N.eq_dec actual texto then 0
        else if JS.no (trim texto) then 0 else 1)
       + pulsaciones texto resto)%nat
  end.


(* ===================================================================== *)
(** ** The use case as an object: the shared field [channelEscritura] *)
(* ===================================================================== *)

Module EscrituraObjeto.
Import ChatUseCaseMas.

(** What one call of [suscribirseAEscritura] closes over: the channel its
    handler was registered on ([canal], the value the field had when the
    call ran), its map [usuariosEscritura] ([mapa]) and its timer handle
    [limpiarInterval] ([intervalo]). *)
Record Cierre := mkCierre {
  canal : Canal;
  mapa : Mapa;
  intervalo : option Z
}.

(** The use case and the client: the field [this.channelEscritura], the
    typing channels subscribed on the client, and the closures of the
    calls of [suscribirseAEscritura] made so far, oldest first. *)
Record Objeto := mkObjeto {
  channelEscritura : option Canal;
  suscritos : list Canal;
  cierres : list Cierre
}.


(** [suscribirseAEscritura], with [nuevo] the channel the client handed
    out: the field is overwritten, the map is fresh, the timer is armed
    and the channel subscribed.  The function it returns is
    [desuscribir] at the position of the new closure,
    [length (cierres o)]. *)
Definition suscribirseAEscritura (nuevo : Canal) (o : Objeto) : Objeto :=
  mkObjeto (Some nuevo)
           (suscritos o ++ [nuevo])
           (cierres o ++ [mkCierre nuevo [] (Some 1000)]).









End EscrituraObjeto.

(* ===================================================================== *)
(** ** Lists *)
(* ===================================================================== *)

Section Listas.
Context {A : Type} (R : A -> A -> Prop).

Lemma StronglySorted_app_intro (l1 l2 : list A) :
  StronglySorted R l1 -> StronglySorted R l2 ->
  (forall x y, In x l1 -> In y l2 -> R x y) ->
  StronglySorted R (l1 ++ l2).
Proof.
  induction l1 as [|a l1 IH]; intros H1 H2 H12; simpl; [exact H2|].
  inversion H1 as [|? ? Hs Hf]; subst.
  constructor.
  - apply IH; auto. intros x y Hx Hy. apply H12; simpl; auto.
  - rewrite Forall_forall in *. intros y Hy.
    apply in_app_or in Hy. destruct Hy as [Hy|Hy]; [auto|].
    apply H12; simpl; auto.
Qed.

Lemma StronglySorted_app_elim (l1 l2 : list A) :
  StronglySorted R (l1 ++ l2) ->
  StronglySorted R l1 /\ StronglySorted R l2
  /\ forall x y, In x l1 -> In y l2 -> R x y.
Proof.
  induction l1 as [|a l1 IH]; simpl; intros H.
  - repeat split; [constructor | exact H | intros x y []].
  - inversion H as [|? ? Hs Hf]; subst.
    destruct (IH Hs) as (I1 & I2 & I3).
    rewrite Forall_forall in Hf.
    repeat split; auto.
    + constructor; auto. rewrite Forall_forall.
      intros y Hy. apply Hf, in_or_app; auto.
    + intros x y [<-|Hx] Hy; [apply Hf, in_or_app|]; auto.
Qed.

End Listas.

Lemma StronglySorted_rev_flip {A : Type} (R : A -> A -> Prop) (l : list A) :
  StronglySorted R l -> StronglySorted (fun x y => R y x) (rev l).
Proof.
  induction 1 as [|a l Hs IH Hf]; simpl; [constructor|].
  apply StronglySorted_app_intro; auto.
  - repeat constructor.
  - rewrite Forall_forall in Hf.
    intros x y Hx [<-|[]]. apply Hf, in_rev, Hx.
Qed.

(* ===================================================================== *)
(** ** The JS [Map] *)
(* ===================================================================== *)

Lemma map_has_In (k : string) (m : Mapa) :
  map_has k m = true <-> In k (map_keys m).
Proof.
  unfold map_has, map_keys. rewrite existsb_exists, in_map_iff.
  split; intros [p [H1 H2]]; exists p.
  - apply String.eqb_eq in H2. auto.
  - split; [exact H2 | apply String.eqb_eq, H1].
Qed.

Lemma map_set_keys (k : string) (v : Z) (m : Mapa) :
  map_keys (map_set k v m)
  = if map_has k m then map_keys m else map_keys m ++ [k].
Proof.
  induction m as [|[k' v'] m IH]; simpl; [reflexivity|].
  destruct (String.eqb_spec k' k) as [->|Hne]; simpl; [reflexivity|].
  rewrite IH. destruct (map_has k m); reflexivity.
Qed.

Lemma map_set_In (k : string) (v : Z) (m : Mapa) (k' : string) (v' : Z) :
  NoDup (map_keys m) ->
  In (k', v') (map_set k v m) ->
  (k' = k /\ v' = v) \/ (k' <> k /\ In (k', v') m).
Proof.
  induction m as [|[k0 v0] m IH]; simpl; intros Hnd.
  - intros [H|[]]. inversion H; auto.
  - inversion Hnd as [|? ? Hni Hnd']; subst.
    destruct (String.eqb_spec k0 k) as [->|Hne]; simpl.
    + intros [H|H]; [inversion H; auto|].
      right. split; [|auto].
      intros ->. apply Hni. unfold map_keys.
      change k with (fst (k, v')). apply in_map, H.
    + intros [H|H].
      * inversion H; subst. right. split; [exact Hne | auto].
      * destruct (IH Hnd' H) as [?|[? ?]]; auto.
Qed.

Lemma map_set_NoDup (k : string) (v : Z) (m : Mapa) :
  NoDup (map_keys m) -> NoDup (map_keys (map_set k v m)).
Proof.
  intros Hnd. rewrite map_set_keys.
  destruct (map_has k m) eqn:Hh; [exact Hnd|].
  apply NoDup_app; [exact Hnd | repeat constructor; simpl; tauto |].
  intros x Hx [<-|[]].
  apply map_has_In in Hx. congruence.
Qed.

Lemma map_keys_In (m : Mapa) (k : string) :
  In k (map_keys m) -> exists v, In (k, v) m.
Proof.
  unfold map_keys. rewrite in_map_iff.
  intros [[k' v] [<- H]]. exists v. exact H.
Qed.

Lemma misma_clave (m : Mapa) (p q : string * Z) :
  NoDup (map_keys m) -> In p m -> In q m -> fst p = fst q -> p = q.
Proof.
  induction m as [|a m IH]; simpl; intros Hnd Hp Hq E; [contradiction|].
  inversion Hnd as [|? ? Hni Hnd']; subst.
  destruct Hp as [->|Hp], Hq as [->|Hq]; auto.
  - exfalso. apply Hni. rewrite E. apply in_map, Hq.
  - exfalso. apply Hni. rewrite <- E. apply in_map, Hp.
Qed.

Lemma filter_filter {A : Type} (f g : A -> bool) (l : list A) :
  filter f (filter g l) = filter (fun x => g x && f x) l.
Proof.
  induction l as [|a l IH]; simpl; [reflexivity|].
  destruct (g a); simpl; [destruct (f a)|]; rewrite IH; reflexivity.
Qed.

Lemma filter_todos {A : Type} (f : A -> bool) (l : list A) :
  (forall x, In x l -> f x = true) -> filter f l = l.
Proof.
  induction l as [|a l IH]; simpl; intros H; [reflexivity|].
  rewrite (H a) by auto. rewrite IH; auto.
Qed.

(* ===================================================================== *)
(** ** The sweep *)
(* ===================================================================== *)

Module BarridoFacts.
Import Escritura.

(** The [forEach] of the sweep, entry by entry: the keys of the inactive
    entries of [l] are deleted from [m], and [cambio] records whether
    there was one. *)
Lemma visitar_fold (ahora : Z) (l m : Mapa) (c : bool) :
  fold_left (visitar ahora) l (m, c)
  = (filter (fun q =>
               negb (existsb (fun p => inactivo ahora p
                                       && String.eqb (fst p) (fst q)) l)) m,
     c || existsb (inactivo ahora) l).
Proof.
  revert m c. induction l as [|[u ts] l IH]; intros m c; simpl.
  - rewrite orb_false_r. rewrite filter_todos; auto.
  - unfold inactivo at 1 3. simpl.
    destruct (ahora - ts >? 3000) eqn:E; rewrite IH; simpl.
    + unfold map_delete. rewrite filter_filter. rewrite orb_true_r.
      f_equal. apply filter_ext. intros [k v]. simpl.
      rewrite (String.eqb_sym k u). rewrite negb_orb. reflexivity.
    + reflexivity.
Qed.

(** On a map, whose keys are distinct, the sweep is a filter. *)
Lemma limpiarInactivos_mapa (ahora : Z) (s : Suscripcion) :
  NoDup (map_keys (usuariosEscritura s)) ->
  usuariosEscritura (fst (limpiarInactivos ahora s))
  = filter (fun p => negb (inactivo ahora p)) (usuariosEscritura s).
Proof.
  intros Hnd. unfold limpiarInactivos. rewrite visitar_fold. simpl.
  apply filter_ext_in. intros q Hq. f_equal.
  destruct (inactivo ahora q) eqn:Eq.
  - apply existsb_exists. exists q.
    rewrite Eq, String.eqb_refl. auto.
  - apply not_true_is_false. intros H.
    apply existsb_exists in H. destruct H as [p [Hp Hpq]].
    apply andb_true_iff in Hpq. destruct Hpq as [Hi He].
    apply String.eqb_eq in He.
    rewrite (misma_clave _ p q Hnd Hp Hq He) in Hi. congruence.
Qed.

Lemma limpiarInactivos_llamadas (ahora : Z) (s : Suscripcion) :
  snd (limpiarInactivos ahora s)
  = if existsb (inactivo ahora) (usuariosEscritura s)
    then [map_keys (usuariosEscritura (fst (limpiarInactivos ahora s)))]
    else [].
Proof.
  unfold limpiarInactivos. rewrite visitar_fold. simpl. reflexivity.
Qed.

Lemma limpiarInactivos_resto (ahora : Z) (s : Suscripcion) :
  channelEscritura (fst (limpiarInactivos ahora s)) = channelEscritura s
  /\ limpiarInterval (fst (limpiarInactivos ahora s)) = limpiarInterval s.
Proof.
  unfold limpiarInactivos. rewrite visitar_fold. simpl. auto.
Qed.

Lemma NoDup_keys_filter (f : string * Z -> bool) (m : Mapa) :
  NoDup (map_keys m) -> NoDup (map_keys (filter f m)).
Proof.
  induction m as [|a m IH]; simpl; intros H; [constructor|].
  inversion H as [|? ? Hni Hnd]; subst.
  destruct (f a); simpl; auto.
  constructor; auto.
  intros Hin. apply Hni. unfold map_keys in *.
  apply in_map_iff in Hin. destruct Hin as [p [E Hp]].
  apply filter_In in Hp. rewrite <- E. apply in_map, Hp.
Qed.

End BarridoFacts.

(* ===================================================================== *)
(** ** Runs of a live subscription *)
(* ===================================================================== *)

Module RunFacts.
Import Escritura BarridoFacts.

Lemma ejecutar_app (pre post : list evento) (s : Suscripcion) :
  ejecutar (pre ++ post) s
  = (fst (ejecutar post (fst (ejecutar pre s))),
     snd (ejecutar pre s) ++ snd (ejecutar post (fst (ejecutar pre s)))).
Proof.
  revert s. induction pre as [|ev pre IH]; intros s; simpl.
  - destruct (ejecutar post s); reflexivity.
  - destruct (entregar ev s) as [s1 l1]. rewrite IH.
    destruct (ejecutar pre s1) as [s2 l2]. simpl.
    rewrite app_assoc. reflexivity.
Qed.

Lemma ejecutar_uno (pre : list evento) (ev : evento) (s : Suscripcion) :
  fst (ejecutar (pre ++ [ev]) s) = fst (entregar ev (fst (ejecutar pre s))).
Proof.
  rewrite ejecutar_app. simpl.
  destruct (entregar ev (fst (ejecutar pre s))). reflexivity.
Qed.

Lemma cronologico_desde_sorted (t : Z) (evs : list evento) :
  cronologico_desde t evs = true ->
  StronglySorted Z.le (t :: List.map momento evs).
Proof.
  revert t. induction evs as [|ev evs IH]; intros t; simpl.
  - repeat constructor.
  - intros H. apply andb_true_iff in H. destruct H as [H1 H2].
    apply Z.leb_le in H1. specialize (IH _ H2).
    constructor; [exact IH|].
    constructor; [exact H1|].
    inversion IH as [|? ? _ Hf]; subst.
    rewrite Forall_forall in *. intros x Hx. specialize (Hf x Hx). lia.
Qed.

Lemma cronologico_sorted (evs : list evento) :
  cronologico evs = true -> StronglySorted Z.le (List.map momento evs).
Proof.
  destruct evs as [|ev evs]; simpl; [constructor|].
  apply cronologico_desde_sorted.
Qed.

Lemma sorted_cronologico_desde (t : Z) (evs : list evento) :
  StronglySorted Z.le (t :: List.map momento evs) ->
  cronologico_desde t evs = true.
Proof.
  revert t. induction evs as [|ev evs IH]; intros t H; simpl; [reflexivity|].
  inversion H as [|? ? Hs Hf]; subst.
  apply andb_true_iff. split; [|apply IH, Hs].
  apply Z.leb_le. inversion Hf; assumption.
Qed.

Lemma cronologico_prefijo (pre : list evento) (ev : evento) :
  cronologico (pre ++ [ev]) = true ->
  cronologico pre = true
  /\ forall e, In e pre -> momento e <= momento ev.
Proof.
  intros H. apply cronologico_sorted in H.
  rewrite map_app in H. apply StronglySorted_app_elim in H.
  destruct H as (H1 & _ & H3). split.
  - destruct pre as [|e pre]; [reflexivity|].
    simpl. apply sorted_cronologico_desde. exact H1.
  - intros e He. apply H3; [apply in_map, He | simpl; auto].
Qed.

Lemma ultimo_evento_app (u : string) (pre : list evento) (ev : evento) :
  ultimo_evento u (pre ++ [ev])
  = match ev with
    | Insert u' t => if String.eqb u' u then Some t else ultimo_evento u pre
    | Tic _ => ultimo_evento u pre
    end.
Proof.
  induction pre as [|e pre IH]; simpl.
  - destruct ev as [u' t|t]; [destruct (String.eqb u' u)|]; reflexivity.
  - rewrite IH. destruct ev as [u' t|t]; [|reflexivity].
    destruct (String.eqb u' u); reflexivity.
Qed.

Lemma ultimo_barrido_app (pre : list evento) (ev : evento) :
  ultimo_barrido (pre ++ [ev])
  = match ev with
    | Insert _ _ => ultimo_barrido pre
    | Tic t => Some t
    end.
Proof.
  induction pre as [|e pre IH]; simpl.
  - destruct ev; reflexivity.
  - rewrite IH. destruct ev; reflexivity.
Qed.

Lemma ultimo_barrido_In (evs : list evento) (T : Z) :
  ultimo_barrido evs = Some T -> In (Tic T) evs.
Proof.
  induction evs as [|e evs IH]; simpl; [discriminate|].
  destruct (ultimo_barrido evs) as [t|].
  - intros H. right. apply IH. exact H.
  - destruct e as [u t|t]; [discriminate|].
    intros H. inversion H. auto.
Qed.

Lemma vigente_inicial : vigente [] suscribirseAEscritura.
Proof.
  unfold vigente. simpl. repeat split; try constructor; contradiction.
Qed.

(** One more event, delivered in time order, keeps the subscription
    [vigente]. *)
Lemma vigente_paso (pre : list evento) (ev : evento) (s : Suscripcion) :
  vigente pre s ->
  (forall e, In e pre -> momento e <= momento ev) ->
  vigente (pre ++ [ev]) (fst (entregar ev s)).
Proof.
  intros (Hc & Hi & Hnd & Hm) Hle.
  destruct ev as [u t|t]; simpl.
  - (* an INSERT reaches the handler *)
    rewrite Hc. simpl.
    split; [exact Hc|]. split; [exact Hi|].
    split; [apply map_set_NoDup, Hnd|].
    intros k v Hin. apply map_set_In in Hin; [|exact Hnd].
    rewrite ultimo_evento_app, ultimo_barrido_app.
    destruct Hin as [[-> ->]|[Hne Hin]].
    + rewrite String.eqb_refl. split; [reflexivity|].
      intros T HT. apply ultimo_barrido_In in HT.
      specialize (Hle _ HT). simpl in Hle. lia.
    + destruct (String.eqb_spec u k); [congruence|].
      apply (Hm _ _ Hin).
  - (* the timer fires *)
    rewrite Hi.
    destruct (limpiarInactivos_resto t s) as [E1 E2].
    pose proof (limpiarInactivos_mapa t s Hnd) as E3.
    split; [rewrite E1; exact Hc|]. split; [rewrite E2; exact Hi|].
    split; [rewrite E3; apply NoDup_keys_filter, Hnd|].
    intros k v Hin. rewrite E3 in Hin. apply filter_In in Hin.
    destruct Hin as [Hin Hact].
    rewrite ultimo_evento_app, ultimo_barrido_app.
    split; [apply (Hm _ _ Hin)|].
    intros T HT. inversion HT; subst.
    unfold inactivo in Hact. simpl in Hact.
    apply negb_true_iff in Hact. rewrite Z.gtb_ltb in Hact.
    apply Z.ltb_ge in Hact. lia.
Qed.

Lemma vigente_ejecutar (evs : list evento) :
  cronologico evs = true ->
  vigente evs (fst (ejecutar evs suscribirseAEscritura)).
Proof.
  induction evs as [|ev pre IH] using rev_ind; intros H.
  - apply vigente_inicial.
  - apply cronologico_prefijo in H. destruct H as [H1 H2].
    rewrite ejecutar_uno. apply vigente_paso; auto.
Qed.

End RunFacts.

Module FlagFacts.
Import Escritura BarridoFacts.

Lemma entregar_resto (ev : evento) (s : Suscripcion) :
  channelEscritura (fst (entregar ev s)) = channelEscritura s
  /\ limpiarInterval (fst (entregar ev s)) = limpiarInterval s.
Proof.
  destruct ev as [u t|t]; simpl.
  - destruct (channelEscritura s) eqn:E; simpl; auto.
  - destruct (limpiarInterval s) eqn:E; [|simpl; auto].
    rewrite <- E. apply limpiarInactivos_resto.
Qed.

Lemma ejecutar_resto (evs : list evento) (s : Suscripcion) :
  channelEscritura (fst (ejecutar evs s)) = channelEscritura s
  /\ limpiarInterval (fst (ejecutar evs s)) = limpiarInterval s.
Proof.
  revert s. induction evs as [|ev evs IH]; intros s; simpl; [auto|].
  destruct (entregar_resto ev s) as [E1 E2].
  destruct (entregar ev s) as [s1 l1]. simpl in *.
  destruct (IH s1) as [F1 F2].
  destruct (ejecutar evs s1) as [s2 l2]. simpl in *.
  split; congruence.
Qed.

(** Nothing the runtime delivers reaches a subscription whose channel is
    removed and whose interval is cleared. *)
Lemma ejecutar_desmontada (evs : list evento) (s : Suscripcion) :
  channelEscritura s = false -> limpiarInterval s = None ->
  ejecutar evs s = (s, []).
Proof.
  intros Hc Hi. induction evs as [|ev evs IH]; simpl; [reflexivity|].
  destruct ev as [u t|t]; simpl; rewrite ?Hc, ?Hi, IH; reflexivity.
Qed.

End FlagFacts.

Module ObjetoFacts.
Import Escritura FlagFacts.


End ObjetoFacts.

(* ===================================================================== *)
(** ** Properties of the typing-presence aggregator *)
(* ===================================================================== *)

Section Presencia.
Import Escritura BarridoFacts RunFacts FlagFacts.

(** C1.  Along every run of a live subscription in which the clock does
    not go backwards: the sweep is armed with a period of 1000 ms; run at
    any instant, the sweep removes exactly the entries older than 3000 ms
    and invokes the callback, with the remaining keys, if and only if it
    removed one; and every user in a list handed to the callback has a most
    recent typing event that was at most 3000 ms old at the most recent
    sweep. *)
Theorem presencia_sin_inactivos :
  forall (pre : list evento) (ev : evento),
    cronologico (pre ++ [ev]) = true ->
    let s := fst (ejecutar pre suscribirseAEscritura) in
    limpiarInterval s = Some 1000
    /\ (forall ahora,
          usuariosEscritura (fst (limpiarInactivos ahora s))
          = filter (fun p => negb (inactivo ahora p)) (usuariosEscritura s)
          /\ snd (limpiarInactivos ahora s)
             = if existsb (inactivo ahora) (usuariosEscritura s)
               then [map_keys
                       (usuariosEscritura (fst (limpiarInactivos ahora s)))]
               else [])
    /\ (forall reportados u,
          In reportados (snd (entregar ev s)) -> In u reportados ->
          exists ts,
            ultimo_evento u (pre ++ [ev]) = Some ts
            /\ forall T, ultimo_barrido (pre ++ [ev]) = Some T ->
                         T - ts <= 3000).
Proof.
  intros pre ev Hcr s.
  destruct (cronologico_prefijo _ _ Hcr) as [Hpre Hle].
  pose proof (vigente_ejecutar pre Hpre) as Hv. fold s in Hv.
  pose proof (vigente_paso pre ev s Hv Hle) as Hv'.
  destruct Hv as (Hc & Hi & Hnd & Hm).
  split; [exact Hi|]. split.
  - intros ahora. split.
    + apply limpiarInactivos_mapa, Hnd.
    + apply limpiarInactivos_llamadas.
  - intros reportados u Hin Hu.
    assert (Hk : In u (map_keys (usuariosEscritura (fst (entregar ev s))))).
    { destruct ev as [k t|t]; simpl in Hin |- *.
      - rewrite Hc in Hin |- *. simpl in Hin |- *.
        destruct Hin as [<-|[]]. exact Hu.
      - rewrite Hi in Hin |- *. rewrite limpiarInactivos_llamadas in Hin.
        destruct (existsb (inactivo t) (usuariosEscritura s));
          [|contradiction].
        destruct Hin as [<-|[]]. exact Hu. }
    apply map_keys_In in Hk. destruct Hk as [ts Hts].
    destruct Hv' as (_ & _ & _ & Hm').
    exists ts. apply (Hm' _ _ Hts).
Qed.

Lemma presencia_sin_inactivos_witness :
  exists ts,
    ultimo_evento "ana"
      ([Insert "ana" 0; Tic 1000; Insert "ana" 1500; Tic 2000]
         ++ [Insert "beto" 2500]) = Some ts
    /\ forall T,
         ultimo_barrido
           ([Insert "ana" 0; Tic 1000; Insert "ana" 1500; Tic 2000]
              ++ [Insert "beto" 2500]) = Some T ->
         T - ts <= 3000.
Proof.
  destruct (presencia_sin_inactivos
              [Insert "ana" 0; Tic 1000; Insert "ana" 1500; Tic 2000]
              (Insert "beto" 2500) eq_refl) as (_ & _ & H).
  apply (H ["ana"; "beto"] "ana"); simpl; auto.
Defined.

(** C2, as the code has it.  The handler invokes the callback once for
    every INSERT delivered to a live subscription, with the keys of the map
    after the update: the same list as before when the user was already
    present (a refresh of the timestamp), the list extended by the user
    otherwise.  The sweep invokes it only when it removed an entry. *)
Theorem callback_en_cada_insert :
  forall (pre : list evento) (userId : string) (ahora : Z),
    let s := fst (ejecutar pre suscribirseAEscritura) in
    let s' := fst (entregar (Insert userId ahora) s) in
    snd (entregar (Insert userId ahora) s)
    = [map_keys (usuariosEscritura s')]
    /\ map_keys (usuariosEscritura s')
       = (if map_has userId (usuariosEscritura s)
          then map_keys (usuariosEscritura s)
          else map_keys (usuariosEscritura s) ++ [userId])
    /\ snd (entregar (Tic ahora) s)
       = (if existsb (inactivo ahora) (usuariosEscritura s)
          then [map_keys (usuariosEscritura (fst (entregar (Tic ahora) s)))]
          else []).
Proof.
  intros pre userId ahora s s'.
  destruct (ejecutar_resto pre suscribirseAEscritura) as [Hc Hi].
  fold s in Hc, Hi. simpl in Hc, Hi.
  subst s'. simpl. rewrite Hc, Hi. simpl.
  split; [reflexivity|]. split.
  - apply map_set_keys.
  - apply limpiarInactivos_llamadas.
Qed.

(** C2 as stated fails: "ana" is present, her next event only refreshes
    her timestamp, the keys stay the same and the callback is invoked. *)
Lemma refresco_invoca_callback :
  let s := fst (ejecutar [Insert "ana" 0] suscribirseAEscritura) in
  map_has "ana" (usuariosEscritura s) = true
  /\ map_keys (usuariosEscritura (fst (entregar (Insert "ana" 500) s)))
     = map_keys (usuariosEscritura s)
  /\ snd (entregar (Insert "ana" 500) s) = [["ana"]].
Proof. repeat split. Qed.




End Presencia.

(* ===================================================================== *)
(** ** The query contract: newest first, at most [limite] rows *)
(* ===================================================================== *)

Module ServidorFacts.
Import Servidor.

Lemma insertar_desc_perm (f : Fila) (l : list Fila) :
  Permutation (f :: l) (insertar_desc f l).
Proof.
  induction l as [|g r IH]; simpl; [reflexivity|].
  destruct (fila_created_at g <? fila_created_at f); [reflexivity|].
  rewrite perm_swap. constructor. exact IH.
Qed.

Lemma ordenar_desc_perm (l : list Fila) : Permutation l (ordenar_desc l).
Proof.
  induction l as [|f l IH]; simpl; [constructor|].
  rewrite <- insertar_desc_perm. constructor. exact IH.
Qed.

Lemma insertar_desc_sorted (f : Fila) (l : list Fila) :
  StronglySorted mas_reciente_primero l ->
  StronglySorted mas_reciente_primero (insertar_desc f l).
Proof.
  induction 1 as [|g r Hs IH Hf]; simpl; [repeat constructor|].
  destruct (Z.ltb_spec (fila_created_at g) (fila_created_at f)) as [Hlt|Hge].
  - constructor; [constructor; assumption|].
    constructor; [unfold mas_reciente_primero; lia|].
    rewrite Forall_forall in *. intros x Hx. specialize (Hf x Hx).
    unfold mas_reciente_primero in *. lia.
  - constructor; [exact IH|].
    rewrite Forall_forall in *. intros x Hx.
    apply (Permutation_in _ (Permutation_sym (insertar_desc_perm f r))) in Hx.
    destruct Hx as [<-|Hx]; [exact Hge | auto].
Qed.

Lemma ordenar_desc_sorted (l : list Fila) :
  StronglySorted mas_reciente_primero (ordenar_desc l).
Proof.
  induction l as [|f l IH]; simpl; [constructor|].
  apply insertar_desc_sorted, IH.
Qed.

End ServidorFacts.

Lemma StronglySorted_map {A B : Type} (R : A -> A -> Prop)
      (Q : B -> B -> Prop) (f : A -> B) (l : list A) :
  (forall x y, R x y -> Q (f x) (f y)) ->
  StronglySorted R l -> StronglySorted Q (List.map f l).
Proof.
  intros HRQ. induction 1 as [|a l Hs IH Hf]; simpl; constructor; auto.
  rewrite Forall_forall in *. intros y Hy.
  apply in_map_iff in Hy. destruct Hy as [x [<- Hx]]. auto.
Qed.

(* ===================================================================== *)
(** ** Properties of the message paths *)
(* ===================================================================== *)

Section Mensajes.
Import ChatUseCase.

(** Whatever rows the query answers, [obtenerMensajes] hands them back
    formatted and in the opposite order; rows that came newest first
    leave oldest first. *)
Lemma obtenerMensajes_invierte (limite : Z) (w : Mundo) (data : list Fila) :
  select_recientes (backend w) limite = Responde (Some data) None ->
  obtenerMensajes limite w
  = (Valor (rev (List.map formatear data)),
     registrar (SelectRecientes limite) w)
  /\ (StronglySorted mas_reciente_primero data ->
      Sorted Z.le (List.map created_at (rev (List.map formatear data)))).
Proof.
  intros H. split.
  - unfold obtenerMensajes, intentar, bind, esperar. rewrite H. reflexivity.
  - intros Hs. apply StronglySorted_Sorted.
    rewrite <- map_rev, map_map.
    apply (StronglySorted_map (fun a b => mas_reciente_primero b a)).
    + intros x y Hxy. exact Hxy.
    + apply (StronglySorted_rev_flip mas_reciente_primero). exact Hs.
Qed.

(** C4.  Against a backend that holds [tabla] and serves the query
    (newest first, at most [limite] rows), [obtenerMensajes] sends that one
    query and returns its rows reversed: the messages carry, in the
    opposite order, the identifiers, creation times, contents, authors'
    ids and joined authors of the rows; they come oldest first, in
    non-decreasing [created_at]; they are [min limite (length tabla)] rows
    of the table and no row left out is newer than a row returned. *)
Theorem obtenerMensajes_orden :
  forall (tabla : list Fila) (limite : Z) (w : Mundo),
    select_recientes (backend w) limite
    = Servidor.consulta_recientes tabla limite ->
    let recientes :=
      firstn (Z.to_nat limite) (Servidor.ordenar_desc tabla) in
    obtenerMensajes limite w
    = (Valor (rev (List.map formatear recientes)),
       registrar (SelectRecientes limite) w)
    /\ (let devueltos := rev (List.map formatear recientes) in
        List.map id devueltos = rev (List.map fila_id recientes)
        /\ List.map created_at devueltos
           = rev (List.map fila_created_at recientes)
        /\ List.map contenido devueltos
           = rev (List.map fila_contenido recientes)
        /\ List.map usuario_id devueltos
           = rev (List.map fila_usuario_id recientes)
        /\ List.map usuario devueltos
           = rev (List.map fila_usuarios recientes))
    /\ StronglySorted mas_reciente_primero recientes
    /\ Sorted Z.le (List.map created_at (rev (List.map formatear recientes)))
    /\ List.length recientes
       = Nat.min (Z.to_nat limite) (List.length tabla)
    /\ exists resto,
         Permutation tabla (recientes ++ resto)
         /\ forall x y, In x recientes -> In y resto ->
                        fila_created_at y <= fila_created_at x.
Proof.
  intros tabla limite w H recientes.
  pose proof (ServidorFacts.ordenar_desc_sorted tabla) as Hs.
  rewrite <- (firstn_skipn (Z.to_nat limite) (Servidor.ordenar_desc tabla))
    in Hs.
  apply StronglySorted_app_elim in Hs. destruct Hs as (Hs1 & _ & Hs3).
  destruct (obtenerMensajes_invierte limite w recientes H) as [E1 E2].
  split; [exact E1|].
  split; [cbv zeta; rewrite !map_rev, !map_map; repeat split|].
  split; [exact Hs1|]. split; [exact (E2 Hs1)|]. split.
  - subst recientes. rewrite length_firstn.
    rewrite (Permutation_length (ServidorFacts.ordenar_desc_perm tabla)).
    reflexivity.
  - exists (skipn (Z.to_nat limite) (Servidor.ordenar_desc tabla)). split.
    + subst recientes. rewrite firstn_skipn.
      apply ServidorFacts.ordenar_desc_perm.
    + intros x y Hx Hy. apply (Hs3 x y Hx Hy).
Qed.

Lemma obtenerMensajes_orden_witness :
  fst (obtenerMensajes 3 (Ejemplos.mundo (Ejemplos.servidor None)))
  = Valor (List.map formatear
             [Ejemplos.fila "m2" 20; Ejemplos.fila "m3" 30;
              Ejemplos.fila "m4" 40]).
Proof.
  destruct (obtenerMensajes_orden Ejemplos.tabla 3
              (Ejemplos.mundo (Ejemplos.servidor None)) eq_refl)
    as [E _].
  rewrite E. reflexivity.
Defined.

(** C9.  For every limit, when the query fails (it answers with an error,
    or it throws) [obtenerMensajes] returns, and the value it returns is
    the empty list; the query was its only request and the React state is
    untouched. *)
Theorem obtenerMensajes_falla :
  forall (limite : Z) (w : Mundo),
    fallo (select_recientes (backend w) limite) = true ->
    fst (obtenerMensajes limite w) = Valor []
    /\ peticiones (snd (obtenerMensajes limite w))
       = peticiones w ++ [SelectRecientes limite]
    /\ hook (snd (obtenerMensajes limite w)) = hook w.
Proof.
  intros limite w H.
  unfold obtenerMensajes, intentar, bind, esperar.
  destruct (select_recientes (backend w) limite) as [data [e|]|e];
    simpl in H; try discriminate; repeat split.
Qed.

Lemma obtenerMensajes_falla_witness :
  fst (obtenerMensajes 50 (Ejemplos.mundo (Ejemplos.caido None))) = Valor [].
Proof.
  apply (obtenerMensajes_falla 50 (Ejemplos.mundo (Ejemplos.caido None))).
  reflexivity.
Defined.

Lemma obtenerMensajes_total (limite : Z) (w : Mundo) :
  exists l, fst (obtenerMensajes limite w) = Valor l.
Proof.
  unfold obtenerMensajes, intentar, bind, esperar.
  destruct (select_recientes (backend w) limite) as [data [e|]|e];
    simpl; eauto.
Qed.

Lemma trimStart_vacio (s : cadena) :
  trimStart s = [] <-> forallb es_espacio s = true.
Proof.
  induction s as [|c s IH]; simpl; [tauto|].
  destruct (es_espacio c); simpl; [exact IH|].
  split; discriminate.
Qed.

(** Blank after trimming: nothing but white space. *)
Lemma trim_vacio (s : cadena) :
  trim s = [] <-> forallb es_espacio s = true.
Proof.
  unfold trim, trimEnd. split.
  - intros H. apply trimStart_vacio.
    apply (f_equal (@rev N)) in H. rewrite rev_involutive in H. simpl in H.
    apply trimStart_vacio in H. rewrite forallb_forall in H.
    destruct (trimStart s) as [|c r] eqn:E; [reflexivity|].
    assert (Hc : es_espacio c = true)
      by (apply H, in_rev; rewrite rev_involutive; simpl; auto).
    clear H. induction s as [|a s IH]; simpl in E; [discriminate|].
    destruct (es_espacio a) eqn:Ea; [auto|].
    inversion E; subst. congruence.
  - intros H. apply trimStart_vacio in H. rewrite H. reflexivity.
Qed.

(** C5.  Content that is blank after trimming makes [useChat]'s
    [enviarMensaje] return the failure "El mensaje está vacío" and leave
    the world exactly as it was: no request, hence no insert, was sent.
    The empty string and three spaces are such contents. *)
Theorem enviarMensaje_vacio :
  forall (contenido : cadena) (w : Mundo),
    trim contenido = [] ->
    useChat.enviarMensaje contenido w
    = (Valor (mkEnvio false (Some "El mensaje está vacío")), w)
    /\ inserts_de_mensajes (peticiones (snd (useChat.enviarMensaje contenido w)))
       = inserts_de_mensajes (peticiones w)
    /\ trim (de_ascii "") = []
    /\ trim (de_ascii "   ") = [].
Proof.
  intros contenido w H.
  unfold useChat.enviarMensaje. rewrite H. simpl. repeat split.
Qed.

Lemma enviarMensaje_vacio_witness :
  useChat.enviarMensaje (de_ascii "   ")
    (Ejemplos.mundo (Ejemplos.servidor (Some Ejemplos.ana)))
  = (Valor (mkEnvio false (Some "El mensaje está vacío")),
     Ejemplos.mundo (Ejemplos.servidor (Some Ejemplos.ana))).
Proof.
  apply (enviarMensaje_vacio (de_ascii "   ")
           (Ejemplos.mundo (Ejemplos.servidor (Some Ejemplos.ana)))).
  reflexivity.
Defined.

(** C6, as the code has it.  [ChatUseCase.enviarMensaje] always returns a
    value and never touches the React state, so it does not wait for the
    echo of its insert.  With no user in the session it returns the
    failure "Usuario no autenticado" after the one request that asked for
    the user.  With a user it sends the insert of the content under that
    user's id, and returns success when the backend accepts it, and the
    failure carrying the backend's message when it does not.  When asking
    for the user throws, the failure carries that message. *)
Theorem enviarMensaje_sesion :
  forall (contenido : cadena) (w : Mundo),
    let r := enviarMensaje contenido w in
    hook (snd r) = hook w
    /\ match auth_getUser (backend w) with
       | Responde None _ =>
           fst r = Valor (mkEnvio false (Some "Usuario no autenticado"))
           /\ peticiones (snd r) = peticiones w ++ [GetUser]
       | Responde (Some user) _ =>
           peticiones (snd r)
           = peticiones w
               ++ [GetUser; GetUser; InsertMensaje contenido (user_id user)]
           /\ fst r
              = Valor
                  (match insert_mensaje (backend w) contenido (user_id user)
                   with
                   | Responde _ None => mkEnvio true None
                   | Responde _ (Some e) => mkEnvio false (Some (message e))
                   | Rechaza e => mkEnvio false (Some (message e))
                   end)
       | Rechaza e =>
           fst r = Valor (mkEnvio false (Some (message e)))
           /\ peticiones (snd r) = peticiones w ++ [GetUser]
       end.
Proof.
  intros contenido w r. subst r.
  unfold enviarMensaje, enviarEventoEscritura, intentar, bind, esperar.
  destruct (auth_getUser (backend w)) as [[user|] e0|e0] eqn:E; simpl.
  - rewrite E. simpl.
    destruct (insert_mensaje (backend w) contenido (user_id user))
      as [[] [e|]|e]; simpl; repeat rewrite <- app_assoc; simpl; auto.
  - auto.
  - auto.
Qed.

(** C6 as stated fails: the session is active, the backend answers the
    insert with an error, and the value returned is a failure. *)
Lemma enviarMensaje_rechazado :
  let w := Ejemplos.mundo (Ejemplos.caido (Some Ejemplos.ana)) in
  auth_getUser (backend w) = Responde (Some Ejemplos.ana) None
  /\ fst (enviarMensaje (de_ascii "hola") w)
     = Valor (mkEnvio false (Some "permission denied")).
Proof. split; reflexivity. Qed.

(** C10.  With no user in the session, [enviarEventoEscritura] asks for
    the user, prints a line and returns normally with no value: it sends
    no insert and reports no error, whereas [enviarMensaje] in the same
    world returns the failure "Usuario no autenticado". *)
Theorem enviarEventoEscritura_sin_sesion :
  forall (escribiendo : bool) (contenido : cadena) (w : Mundo)
         (e : option ErrorJS),
    auth_getUser (backend w) = Responde None e ->
    enviarEventoEscritura escribiendo w
    = (Valor tt,
       imprimir "Usuario no autenticado, no se envía evento de escritura."
                (registrar GetUser w))
    /\ inserts_de_escritura
         (peticiones (snd (enviarEventoEscritura escribiendo w)))
       = inserts_de_escritura (peticiones w)
    /\ fst (enviarMensaje contenido w)
       = Valor (mkEnvio false (Some "Usuario no autenticado")).
Proof.
  intros escribiendo contenido w e H.
  unfold enviarMensaje, enviarEventoEscritura, intentar, bind, esperar,
    console_log.
  rewrite H. simpl. repeat split.
  unfold inserts_de_escritura. rewrite filter_app. simpl.
  apply app_nil_r.
Qed.

Lemma enviarEventoEscritura_sin_sesion_witness :
  fst (enviarEventoEscritura true (Ejemplos.mundo (Ejemplos.servidor None)))
  = Valor tt
  /\ peticiones
       (snd (enviarEventoEscritura true
               (Ejemplos.mundo (Ejemplos.servidor None))))
     = [GetUser].
Proof.
  destruct (enviarEventoEscritura_sin_sesion true (de_ascii "hola")
              (Ejemplos.mundo (Ejemplos.servidor None)) None eq_refl)
    as [E _].
  rewrite E. split; reflexivity.
Defined.

End Mensajes.

(* ===================================================================== *)
(** ** Properties of the message relay and of its subscriber *)
(* ===================================================================== *)

Section Relay.
Import ChatUseCase.


Lemma veces_existsb (i : string) (l : list Mensaje) :
  existsb (fun m => String.eqb (id m) i) l = negb (Nat.eqb (veces i l) 0).
Proof.
  unfold veces. induction l as [|a l IH]; simpl; [reflexivity|].
  destruct (String.eqb (id a) i); simpl; [reflexivity | exact IH].
Qed.

(** The updater of the subscription, by the number of messages that
    already carry the identifier. *)
Lemma agregar_veces (m : Mensaje) (prev : list Mensaje) :
  useChat.agregar m prev
  = if Nat.eqb (veces (id m) prev) 0 then prev ++ [m] else prev.
Proof.
  unfold useChat.agregar. rewrite veces_existsb.
  destruct (Nat.eqb (veces (id m) prev) 0); reflexivity.
Qed.


Lemma agregar_presente (m : Mensaje) (l : list Mensaje) :
  veces (id m) l <> 0%nat -> useChat.agregar m l = l.
Proof.
  intros H. rewrite agregar_veces.
  destruct (Nat.eqb_spec (veces (id m) l) 0); [contradiction | reflexivity].
Qed.

(** The relay with the callback of [useChat]: one fetch, and the message
    it resolved to, if any, goes through the updater. *)
Lemma relay_con_hook (payload : Payload) (w : Mundo) :
  exists (f : list Mensaje -> list Mensaje),
    fst (alInsertarMensaje useChat.alNuevoMensaje payload w) = Valor tt
    /\ backend (snd (alInsertarMensaje useChat.alNuevoMensaje payload w))
       = backend w
    /\ peticiones (snd (alInsertarMensaje useChat.alNuevoMensaje payload w))
       = peticiones w ++ [SelectPorId (new_id payload)]
    /\ mensajes
         (hook (snd (alInsertarMensaje useChat.alNuevoMensaje payload w)))
       = f (mensajes (hook w))
    /\ f = match select_por_id (backend w) (new_id payload) with
           | Responde (Some d) None => useChat.agregar (mensajeFormateado d)
           | Responde None None => fun prev => prev
           | _ => useChat.agregar (mensajeFallback payload)
           end.
Proof.
  exists (match select_por_id (backend w) (new_id payload) with
          | Responde (Some d) None => useChat.agregar (mensajeFormateado d)
          | Responde None None => fun prev => prev
          | _ => useChat.agregar (mensajeFallback payload)
          end).
  unfold alInsertarMensaje, useChat.alNuevoMensaje, useChat.setMensajes,
    actualizar, intentar, bind, esperar, console_log, console_error.
  simpl.
  destruct (select_por_id (backend w) (new_id payload)) as [[d|] [e|]|e];
    simpl; repeat split.
Qed.

(** C7.  When the enrichment fetch of an INSERT fails (it answers with an
    error, or it throws), the relay ends by calling the callback on the
    message built from the raw payload with the author
    [{ email: "Desconocido", rol: "usuario" }]; with the callback of
    [useChat] the handler returns normally and that message went through
    the updater of the message list. *)
Theorem relay_entrega_fallback :
  forall (callback : Mensaje -> M unit) (payload : Payload) (w : Mundo),
    fallo (select_por_id (backend w) (new_id payload)) = true ->
    (exists w', alInsertarMensaje callback payload w
                = callback (mensajeFallback payload) w')
    /\ mensajeFallback payload
       = mkMensaje (new_id payload) (new_contenido payload)
                   (new_usuario_id payload) (new_created_at payload)
                   None (Some (mkAutor "Desconocido" "usuario"))
    /\ fst (alInsertarMensaje useChat.alNuevoMensaje payload w) = Valor tt
    /\ mensajes
         (hook (snd (alInsertarMensaje useChat.alNuevoMensaje payload w)))
       = useChat.agregar (mensajeFallback payload) (mensajes (hook w)).
Proof.
  intros callback payload w H. split; [|split; [reflexivity|]].
  - unfold alInsertarMensaje, intentar, bind, esperar, console_log,
      console_error. simpl.
    destruct (select_por_id (backend w) (new_id payload)) as [d [e|]|e];
      simpl in H; try discriminate; simpl.
    + match goal with
      | |- context [callback ?m ?w1] =>
          destruct (callback m w1) as [[a|e'] w2] eqn:E
      end.
      * eexists. symmetry. exact E.
      * eexists. reflexivity.
    + eexists. reflexivity.
  - destruct (relay_con_hook payload w) as (f & E1 & _ & _ & E4 & Ef).
    split; [exact E1|]. rewrite E4, Ef.
    destruct (select_por_id (backend w) (new_id payload)) as [[d|] [e|]|e];
      simpl in H; try discriminate; reflexivity.
Qed.

Lemma relay_entrega_fallback_witness :
  List.map usuario
    (mensajes
       (hook (snd (alInsertarMensaje useChat.alNuevoMensaje
                     Ejemplos.evento_m9
                     (Ejemplos.mundo (Ejemplos.caido None))))))
  = [Some (mkAutor "Desconocido" "usuario")].
Proof.
  destruct (relay_entrega_fallback useChat.alNuevoMensaje Ejemplos.evento_m9
              (Ejemplos.mundo (Ejemplos.caido None)) eq_refl)
    as (_ & _ & _ & E).
  rewrite E. reflexivity.
Defined.



End Relay.


(* ===================================================================== *)
(** ** More on the typing-presence aggregator *)
(* ===================================================================== *)

Module EscrituraFacts.
Import Escritura BarridoFacts RunFacts FlagFacts.

Lemma entregar_NoDup (ev : evento) (s : Suscripcion) :
  NoDup (map_keys (usuariosEscritura s)) ->
  NoDup (map_keys (usuariosEscritura (fst (entregar ev s)))).
Proof.
  intros Hnd. destruct ev as [u t|t]; simpl.
  - destruct (channelEscritura s); simpl; [apply map_set_NoDup|]; exact Hnd.
  - destruct (limpiarInterval s); simpl; [|exact Hnd].
    rewrite limpiarInactivos_mapa by exact Hnd.
    apply NoDup_keys_filter, Hnd.
Qed.

Lemma ejecutar_NoDup (evs : list evento) (s : Suscripcion) :
  NoDup (map_keys (usuariosEscritura s)) ->
  NoDup (map_keys (usuariosEscritura (fst (ejecutar evs s)))).
Proof.
  revert s. induction evs as [|ev evs IH]; intros s Hnd; simpl; [exact Hnd|].
  pose proof (entregar_NoDup ev s Hnd) as H1.
  destruct (entregar ev s) as [s1 l1]. simpl in H1.
  specialize (IH s1 H1). destruct (ejecutar evs s1) as [s2 l2]. exact IH.
Qed.

(** A sweep that finds no inactive entry leaves the map as it is. *)
Lemma limpiarInactivos_nada (ahora : Z) (s : Suscripcion) :
  existsb (inactivo ahora) (usuariosEscritura s) = false ->
  usuariosEscritura (fst (limpiarInactivos ahora s)) = usuariosEscritura s.
Proof.
  intros H. unfold limpiarInactivos. rewrite visitar_fold. simpl.
  apply filter_todos. intros q Hq. apply negb_true_iff.
  apply not_true_is_false. intros Hex.
  apply existsb_exists in Hex. destruct Hex as [p [Hp Hpq]].
  apply andb_true_iff in Hpq. destruct Hpq as [Hi _].
  assert (existsb (inactivo ahora) (usuariosEscritura s) = true)
    by (apply existsb_exists; eauto).
  congruence.
Qed.

(** What one delivery does to the subscriber: nothing is reported and the
    map is the same, or the keys of the new map are reported once. *)
Lemma entregar_informa (ev : evento) (s : Suscripcion) :
  (snd (entregar ev s) = []
   /\ usuariosEscritura (fst (entregar ev s)) = usuariosEscritura s)
  \/ snd (entregar ev s) = [map_keys (usuariosEscritura (fst (entregar ev s)))].
Proof.
  destruct ev as [u t|t]; simpl.
  - destruct (channelEscritura s); simpl; auto.
  - destruct (limpiarInterval s); simpl; auto.
    rewrite limpiarInactivos_llamadas.
    destruct (existsb (inactivo t) (usuariosEscritura s)) eqn:E; auto.
    left. split; [reflexivity | apply limpiarInactivos_nada, E].
Qed.

Lemma last_cons {A : Type} (a d : A) (l : list A) :
  last (a :: l) d = last l a.
Proof.
  assert (H : forall (l : list A) (b d1 d2 : A),
             last (b :: l) d1 = last (b :: l) d2).
  { clear. induction l as [|c l IH]; intros b d1 d2; [reflexivity|].
    change (last (c :: l) d1 = last (c :: l) d2). apply IH. }
  destruct l as [|b l]; [reflexivity|].
  change (last (b :: l) d = last (b :: l) a). apply H.
Qed.

Lemma ejecutar_informa (evs : list evento) (s : Suscripcion) :
  last (snd (ejecutar evs s)) (map_keys (usuariosEscritura s))
  = map_keys (usuariosEscritura (fst (ejecutar evs s))).
Proof.
  revert s. induction evs as [|ev evs IH]; intros s; simpl; [reflexivity|].
  pose proof (entregar_informa ev s) as H.
  destruct (entregar ev s) as [s1 l1]. simpl in H.
  specialize (IH s1). destruct (ejecutar evs s1) as [s2 l2]. simpl in *.
  destruct H as [[-> E]| ->]; simpl.
  - rewrite <- E. exact IH.
  - rewrite <- IH. apply last_cons.
Qed.

Lemma ejecutar_sin_duplicados (evs : list evento) (s : Suscripcion) :
  NoDup (map_keys (usuariosEscritura s)) ->
  Forall (@NoDup string) (snd (ejecutar evs s)).
Proof.
  revert s. induction evs as [|ev evs IH]; intros s Hnd; simpl; [constructor|].
  pose proof (entregar_NoDup ev s Hnd) as H1.
  pose proof (entregar_informa ev s) as H2.
  destruct (entregar ev s) as [s1 l1]. simpl in H1, H2.
  specialize (IH s1 H1). destruct (ejecutar evs s1) as [s2 l2]. simpl in *.
  apply Forall_app. split; [|exact IH].
  destruct H2 as [[-> _]| ->]; repeat constructor. exact H1.
Qed.

Lemma notificar_ultimo (llamadas : Llamadas) (w : Mundo) :
  fst (useChatMas.notificar llamadas w) = Valor tt
  /\ usuariosEscribiendo (hook (snd (useChatMas.notificar llamadas w)))
     = last llamadas (usuariosEscribiendo (hook w))
  /\ mensajes (hook (snd (useChatMas.notificar llamadas w)))
     = mensajes (hook w)
  /\ peticiones (snd (useChatMas.notificar llamadas w)) = peticiones w.
Proof.
  revert w. induction llamadas as [|l r IH]; intros w; simpl; [auto|].
  unfold bind, useChatMas.alCambiarEscritura,
    useChatMas.setUsuariosEscribiendo, actualizar. simpl.
  match goal with |- context [useChatMas.notificar r ?w1] =>
    destruct (IH w1) as (E1 & E2 & E3 & E4) end.
  rewrite E1, E2, E3, E4. simpl. repeat split.
  symmetry. apply last_cons.
Qed.

Lemma filter_menor {A : Type} (f : A -> bool) (l : list A) (x : A) :
  In x l -> f x = false ->
  (List.length (filter f l) < List.length l)%nat.
Proof.
  induction l as [|a l IH]; simpl; [contradiction|].
  intros [->|Hx] Hf.
  - rewrite Hf. pose proof (filter_length_le f l). lia.
  - specialize (IH Hx Hf). destruct (f a); simpl; lia.
Qed.

(** A sweep that calls back leaves a shorter map. *)
Lemma limpiarInactivos_acorta (ahora : Z) (s : Suscripcion) :
  (List.length (snd (limpiarInactivos ahora s))
   + List.length (usuariosEscritura (fst (limpiarInactivos ahora s)))
   <= List.length (usuariosEscritura s))%nat.
Proof.
  rewrite limpiarInactivos_llamadas.
  destruct (existsb (inactivo ahora) (usuariosEscritura s)) eqn:E.
  - simpl. apply existsb_exists in E. destruct E as [q [Hq Hi]].
    unfold limpiarInactivos. rewrite visitar_fold. simpl.
    apply (filter_menor _ _ q Hq).
    apply negb_false_iff, existsb_exists. exists q.
    rewrite Hi, String.eqb_refl. auto.
  - simpl. rewrite limpiarInactivos_nada by exact E. lia.
Qed.

Lemma map_set_length (k : string) (v : Z) (m : Mapa) :
  (List.length (map_set k v m) <= S (List.length m))%nat.
Proof.
  induction m as [|[k' v'] m IH]; simpl; [lia|].
  destruct (String.eqb k' k); simpl; lia.
Qed.

Lemma ejecutar_cuenta (evs : list evento) (s : Suscripcion) :
  (List.length (snd (ejecutar evs s))
   + List.length (usuariosEscritura (fst (ejecutar evs s)))
   <= List.length (usuariosEscritura s) + 2 * n_inserts evs)%nat.
Proof.
  revert s. induction evs as [|ev evs IH]; intros s; simpl; [lia|].
  assert (H : (List.length (snd (entregar ev s))
               + List.length (usuariosEscritura (fst (entregar ev s)))
               <= List.length (usuariosEscritura s)
                  + match ev with Insert _ _ => 2 | Tic _ => 0 end)%nat).
  { destruct ev as [u t|t]; simpl.
    - destruct (channelEscritura s); simpl; [|lia].
      pose proof (map_set_length u t (usuariosEscritura s)). lia.
    - destruct (limpiarInterval s); simpl; [|lia].
      pose proof (limpiarInactivos_acorta t s). lia. }
  destruct (entregar ev s) as [s1 l1]. simpl in H.
  specialize (IH s1). destruct (ejecutar evs s1) as [s2 l2]. simpl in *.
  rewrite length_app. unfold n_inserts in *. 
  destruct ev as [u t|t]; simpl; lia.
Qed.

End EscrituraFacts.

Section PresenciaMas.
Import Escritura BarridoFacts RunFacts FlagFacts EscrituraFacts.

(** X1.  Whatever is delivered to a subscription, in whatever order and
    with whatever clock values, no list handed to the callback names a
    user twice. *)
Theorem llamadas_sin_repetidos :
  forall (evs : list evento),
    Forall (@NoDup string) (snd (ejecutar evs suscribirseAEscritura)).
Proof.
  intros evs. apply ejecutar_sin_duplicados. constructor.
Qed.

(** X2.  With the callback of [useChat], which stores the list it is
    given, and a hook that starts from the empty list: after any run of
    the subscription the stored list is the list of keys of the map, in
    the order of the map.  The user interface never shows a list the
    aggregator no longer holds. *)
Theorem escribiendo_al_dia :
  forall (evs : list evento) (w : Mundo),
    usuariosEscribiendo (hook w) = [] ->
    usuariosEscribiendo
      (hook (snd (useChatMas.notificar
                    (snd (ejecutar evs suscribirseAEscritura)) w)))
    = map_keys (usuariosEscritura (fst (ejecutar evs suscribirseAEscritura))).
Proof.
  intros evs w H.
  destruct (notificar_ultimo (snd (ejecutar evs suscribirseAEscritura)) w)
    as (_ & E & _).
  rewrite E, H. apply (ejecutar_informa evs suscribirseAEscritura).
Qed.

Lemma escribiendo_al_dia_witness :
  usuariosEscribiendo
    (hook (snd (useChatMas.notificar
                  (snd (ejecutar [Insert "ana" 0; Insert "beto" 2000;
                                  Tic 3500]
                                 suscribirseAEscritura))
                  (Ejemplos.mundo (Ejemplos.servidor None)))))
  = ["beto"].
Proof.
  rewrite (escribiendo_al_dia
             [Insert "ana" 0; Insert "beto" 2000; Tic 3500]
             (Ejemplos.mundo (Ejemplos.servidor None)) eq_refl).
  reflexivity.
Defined.

(** X3.  Two sweeps in a row leave the map one sweep at the later of the
    two instants leaves, and a sweep that follows a sweep made at the same
    or a later instant removes nothing and does not call back. *)
Theorem barridos_seguidos :
  forall (pre : list evento) (t1 t2 : Z),
    let s := fst (ejecutar pre suscribirseAEscritura) in
    usuariosEscritura (fst (limpiarInactivos t2 (fst (limpiarInactivos t1 s))))
    = usuariosEscritura (fst (limpiarInactivos (Z.max t1 t2) s))
    /\ snd (limpiarInactivos (Z.min t1 t2) (fst (limpiarInactivos t1 s)))
       = [].
Proof.
  intros pre t1 t2 s.
  assert (Hnd : NoDup (map_keys (usuariosEscritura s)))
    by (apply ejecutar_NoDup; constructor).
  assert (Hnd1 : NoDup (map_keys
                          (usuariosEscritura (fst (limpiarInactivos t1 s))))).
  { rewrite limpiarInactivos_mapa by exact Hnd.
    apply NoDup_keys_filter, Hnd. }
  split.
  - rewrite (limpiarInactivos_mapa t2) by exact Hnd1.
    rewrite !limpiarInactivos_mapa by exact Hnd.
    rewrite filter_filter. apply filter_ext. intros [k ts].
    unfold inactivo. simpl.
    destruct (Z.gtb_spec (t1 - ts) 3000), (Z.gtb_spec (t2 - ts) 3000),
      (Z.gtb_spec (Z.max t1 t2 - ts) 3000); simpl; try reflexivity; lia.
  - rewrite limpiarInactivos_llamadas.
    rewrite (limpiarInactivos_mapa t1) by exact Hnd.
    match goal with |- (if ?b then _ else _) = _ =>
      assert (Hb : b = false); [|rewrite Hb; reflexivity] end.
    apply not_true_is_false. intros Hex.
    apply existsb_exists in Hex. destruct Hex as [[k ts] [Hin Hi]].
    apply filter_In in Hin. destruct Hin as [_ Hact].
    unfold inactivo in *. simpl in *.
    apply negb_true_iff in Hact.
    rewrite Z.gtb_ltb in Hact, Hi.
    apply Z.ltb_ge in Hact. apply Z.ltb_lt in Hi. lia.
Qed.

(** X4.  The threshold is strict.  A user whose event was handled at [t]
    is still in the map after a sweep at [T] exactly when [T - t] is at
    most 3000: at 3000 ms of silence the user stays, one millisecond later
    the user is gone. *)
Theorem umbral_estricto :
  forall (pre : list evento) (userId : string) (t T : Z),
    let s := fst (ejecutar pre suscribirseAEscritura) in
    let s1 := fst (entregar (Insert userId t) s) in
    map_has userId (usuariosEscritura (fst (entregar (Tic T) s1)))
    = (T - t <=? 3000).
Proof.
  intros pre userId t T s s1.
  destruct (ejecutar_resto pre suscribirseAEscritura) as [Hc Hi].
  fold s in Hc, Hi. simpl in Hc, Hi.
  assert (Hnd : NoDup (map_keys (usuariosEscritura s)))
    by (apply ejecutar_NoDup; constructor).
  assert (E1 : s1 = fst (alInsertar userId t s))
    by (subst s1; simpl; rewrite Hc; reflexivity).
  assert (Hnd1 : NoDup (map_keys (usuariosEscritura s1)))
    by (rewrite E1; simpl; apply map_set_NoDup, Hnd).
  assert (Hi1 : limpiarInterval s1 = Some 1000)
    by (rewrite E1; simpl; exact Hi).
  simpl. rewrite Hi1. rewrite limpiarInactivos_mapa by exact Hnd1.
  assert (Hin : In (userId, t) (usuariosEscritura s1)).
  { rewrite E1. simpl. clear. induction (usuariosEscritura s) as [|[k v] m IH];
      simpl; [auto|].
    destruct (String.eqb_spec k userId); simpl; auto. }
  destruct (Z.leb_spec (T - t) 3000) as [Hle|Hgt].
  - apply map_has_In. unfold map_keys.
    change userId with (fst (userId, t)). apply in_map.
    apply filter_In. split; [exact Hin|].
    unfold inactivo. simpl. apply negb_true_iff.
    rewrite Z.gtb_ltb. apply Z.ltb_ge. lia.
  - apply not_true_is_false. intros H. apply map_has_In in H.
    apply map_keys_In in H. destruct H as [v Hv].
    apply filter_In in Hv. destruct Hv as [Hv Hact].
    assert (E : (userId, v) = (userId, t))
      by (apply (misma_clave _ _ _ Hnd1 Hv Hin); reflexivity).
    inversion E; subst v.
    unfold inactivo in Hact. simpl in Hact.
    apply negb_true_iff in Hact. rewrite Z.gtb_ltb in Hact.
    apply Z.ltb_ge in Hact. lia.
Qed.

(** X5.  The callback is invoked at most twice per INSERT delivered: once
    by the handler, and at most once more by the sweep that removes the
    user.  Timer firings alone never invoke it. *)
Theorem llamadas_acotadas :
  forall (evs : list evento),
    (List.length (snd (ejecutar evs suscribirseAEscritura))
     <= 2 * n_inserts evs)%nat.
Proof.
  intros evs.
  pose proof (ejecutar_cuenta evs suscribirseAEscritura) as H.
  simpl in H. lia.
Qed.

End PresenciaMas.


(* ===================================================================== *)
(** ** More on the send, load and delete paths *)
(* ===================================================================== *)

Section MensajesMas.
Import ChatUseCase.

(** X6.  [enviarEventoEscritura] returns normally in every world, also
    when asking for the user throws or the backend refuses the insert, and
    leaves the React state alone.  It sends one insert against
    [indicadores_escritura], under the id of the user, when there is a
    user and [escribiendo] is true; otherwise it sends none.  It never
    inserts a message. *)
Theorem enviarEventoEscritura_resultado :
  forall (escribiendo : bool) (w : Mundo),
    let r := enviarEventoEscritura escribiendo w in
    fst r = Valor tt
    /\ hook (snd r) = hook w
    /\ inserts_de_escritura (peticiones (snd r))
       = inserts_de_escritura (peticiones w)
           ++ match auth_getUser (backend w) with
              | Responde (Some user) _ =>
                  if escribiendo then [InsertEscritura (user_id user)] else []
              | _ => []
              end
    /\ inserts_de_mensajes (peticiones (snd r))
       = inserts_de_mensajes (peticiones w).
Proof.
  intros escribiendo w r. subst r.
  unfold enviarEventoEscritura, intentar, bind, esperar, console_log,
    console_error, inserts_de_escritura, inserts_de_mensajes.
  destruct (auth_getUser (backend w)) as [[user|] e0|e0]; simpl;
    [destruct escribiendo; simpl;
     [destruct (insert_escritura (backend w) (user_id user)) as [[] [e|]|e];
      simpl|]| |];
    rewrite ?filter_app; simpl; rewrite ?filter_app; simpl;
    rewrite ?app_nil_r; repeat split.
Qed.

(** X7.  [cargarMensajes] returns normally in every world and always ends
    with [cargando] false.  It sends the one query for the 50 most recent
    messages and replaces the list by its rows, oldest first; when the
    query fails, or answers no rows, the list it leaves is empty, whatever
    the list held before. *)
Theorem cargarMensajes_resultado :
  forall (w : Mundo),
    let r := useChat.cargarMensajes w in
    fst r = Valor tt
    /\ cargando (hook (snd r)) = false
    /\ mensajes (hook (snd r))
       = match select_recientes (backend w) 50 with
         | Responde (Some data) None => rev (List.map formatear data)
         | _ => []
         end
    /\ peticiones (snd r) = peticiones w ++ [SelectRecientes 50]
    /\ enviando (hook (snd r)) = enviando (hook w)
    /\ inputTexto (hook (snd r)) = inputTexto (hook w)
    /\ usuariosEscribiendo (hook (snd r)) = usuariosEscribiendo (hook w).
Proof.
  intros w r. subst r.
  unfold useChat.cargarMensajes, useChat.setCargando, useChat.setMensajes,
    obtenerMensajes, limite_por_defecto, actualizar, intentar, bind, esperar,
    console_error.
  simpl.
  destruct (select_recientes (backend w) 50) as [[data|] [e|]|e];
    simpl; repeat split.
Qed.

(** X8.  For content that is not blank, [enviarMensaje] of the hook hands
    the content over untrimmed and returns what the use case returns.
    Whether the send succeeded or failed, it ends with [enviando] false,
    the input emptied and the typing timer cleared, and it does not add
    the message to the list: a failed send loses the text typed. *)
Theorem enviarMensaje_hook :
  forall (contenido : cadena) (w : Mundo),
    trim contenido <> [] ->
    let r := useChat.enviarMensaje contenido w in
    fst r = fst (enviarMensaje contenido w)
    /\ peticiones (snd r) = peticiones (snd (enviarMensaje contenido w))
    /\ mensajes (hook (snd r)) = mensajes (hook w)
    /\ enviando (hook (snd r)) = false
    /\ inputTexto (hook (snd r)) = []
    /\ typingTimeoutRef (hook (snd r)) = false.
Proof.
  intros contenido w H r. subst r.
  unfold useChat.enviarMensaje.
  destruct (trim contenido) as [|c t] eqn:E; [contradiction|]. simpl.
  unfold useChat.setEnviando, useChat.setInputTexto, useChat.detenerEscritura,
    enviarMensaje, enviarEventoEscritura, actualizar, intentar, bind, esperar,
    console_error, console_log.
  simpl.
  destruct (auth_getUser (backend w)) as [[user|] e0|e0] eqn:Ea; simpl.
  - rewrite ?Ea. simpl.
    destruct (insert_mensaje (backend w) contenido (user_id user))
      as [[] [e|]|e]; simpl; repeat split.
  - repeat split.
  - repeat split.
Qed.

Lemma enviarMensaje_hook_witness :
  fst (useChat.enviarMensaje (de_ascii " hola ")
         (Ejemplos.mundo (Ejemplos.caido (Some Ejemplos.ana))))
  = Valor (mkEnvio false (Some "permission denied"))
  /\ inputTexto
       (hook (snd (useChat.enviarMensaje (de_ascii " hola ")
                     (Ejemplos.mundo (Ejemplos.caido (Some Ejemplos.ana))))))
     = [].
Proof.
  assert (H : trim (de_ascii " hola ") <> []) by (vm_compute; discriminate).
  destruct (enviarMensaje_hook (de_ascii " hola ")
              (Ejemplos.mundo (Ejemplos.caido (Some Ejemplos.ana))) H)
    as (E1 & _ & _ & _ & E5 & _).
  split; [rewrite E1; reflexivity | exact E5].
Defined.

End MensajesMas.


(* ===================================================================== *)
(** ** The message list of the hook *)
(* ===================================================================== *)

Section ListaMensajes.
Import ChatUseCase.

Lemma veces_cero (i : string) (l : list Mensaje) :
  veces i l = 0%nat <-> ~ In i (List.map id l).
Proof.
  unfold veces. induction l as [|a l IH]; simpl; [tauto|].
  destruct (String.eqb_spec (id a) i) as [E|E]; simpl.
  - split; [discriminate | intros H; exfalso; apply H; auto].
  - rewrite IH. split; [intros H [H1|H1]; auto | tauto].
Qed.

Lemma agregar_NoDup (m : Mensaje) (prev : list Mensaje) :
  NoDup (List.map id prev) -> NoDup (List.map id (useChat.agregar m prev)).
Proof.
  intros H. rewrite agregar_veces.
  destruct (Nat.eqb_spec (veces (id m) prev) 0) as [E|E]; [|exact H].
  rewrite map_app. simpl. apply NoDup_app; [exact H | repeat constructor; simpl; tauto |].
  intros x Hx [<-|[]]. apply veces_cero in E. contradiction.
Qed.

Lemma filter_ids_NoDup (f : Mensaje -> bool) (l : list Mensaje) :
  NoDup (List.map id l) -> NoDup (List.map id (filter f l)).
Proof.
  induction l as [|a l IH]; simpl; intros H; [constructor|].
  inversion H as [|? ? Hni Hnd]; subst.
  destruct (f a); simpl; auto.
  constructor; auto. intros Hin. apply Hni.
  apply in_map_iff in Hin. destruct Hin as [x [E Hx]].
  apply filter_In in Hx. rewrite <- E. apply in_map, Hx.
Qed.

Lemma veces_filter (i : string) (l : list Mensaje) :
  veces i (filter (fun m => negb (String.eqb (id m) i)) l) = 0%nat.
Proof.
  apply veces_cero. intros H.
  apply in_map_iff in H. destruct H as [x [E Hx]].
  apply filter_In in Hx. destruct Hx as [_ Hx].
  rewrite E, String.eqb_refl in Hx. discriminate.
Qed.

(** [eliminarMensaje] of the hook, by the answer to the delete. *)
Lemma eliminarMensaje_forma (delete_mensaje : string -> Llamada unit)
      (mensajeId : string) (w : Mundo) :
  fst (useChatMas.eliminarMensaje delete_mensaje mensajeId w)
  = Valor (match delete_mensaje mensajeId with
           | Responde _ None => mkEnvio true None
           | Responde _ (Some e) => mkEnvio false (Some (message e))
           | Rechaza e => mkEnvio false (Some (message e))
           end)
  /\ mensajes (hook (snd (useChatMas.eliminarMensaje delete_mensaje
                            mensajeId w)))
     = (if fallo (delete_mensaje mensajeId)
        then mensajes (hook w)
        else filter (fun m => negb (String.eqb (id m) mensajeId))
                    (mensajes (hook w)))
  /\ peticiones (snd (useChatMas.eliminarMensaje delete_mensaje mensajeId w))
     = peticiones w.
Proof.
  unfold useChatMas.eliminarMensaje, ChatUseCaseMas.eliminarMensaje,
    ChatUseCaseMas.consultar, useChat.setMensajes, actualizar, intentar,
    bind, console_error.
  destruct (delete_mensaje mensajeId) as [[] [e|]|e]; simpl; repeat split.
Qed.



(** X10.  [eliminarMensaje] of the hook returns normally whatever the
    backend does.  When the delete is answered without error it returns
    success and the list loses every message with that identifier, the
    others staying in their order; when the delete fails it returns the
    failure with the backend's message and the list is untouched. *)
Theorem eliminarMensaje_resultado :
  forall (delete_mensaje : string -> Llamada unit) (mensajeId : string)
         (w : Mundo),
    let r := useChatMas.eliminarMensaje delete_mensaje mensajeId w in
    fst r
    = Valor (match delete_mensaje mensajeId with
             | Responde _ None => mkEnvio true None
             | Responde _ (Some e) => mkEnvio false (Some (message e))
             | Rechaza e => mkEnvio false (Some (message e))
             end)
    /\ mensajes (hook (snd r))
       = (if fallo (delete_mensaje mensajeId)
          then mensajes (hook w)
          else filter (fun m => negb (String.eqb (id m) mensajeId))
                      (mensajes (hook w)))
    /\ veces mensajeId (mensajes (hook (snd r)))
       = (if fallo (delete_mensaje mensajeId)
          then veces mensajeId (mensajes (hook w))
          else 0%nat).
Proof.
  intros delete_mensaje mensajeId w r. subst r.
  destruct (eliminarMensaje_forma delete_mensaje mensajeId w)
    as (E1 & E2 & _).
  split; [exact E1|]. split; [exact E2|]. rewrite E2.
  destruct (fallo (delete_mensaje mensajeId)); [reflexivity|].
  apply veces_filter.
Qed.

(** X11.  A list of messages with pairwise different identifiers keeps
    them pairwise different through a delivery by the relay and through a
    deletion, whatever the backend answers. *)
Theorem ids_distintos :
  forall (payload : Payload) (delete_mensaje : string -> Llamada unit)
         (mensajeId : string) (w : Mundo),
    NoDup (List.map id (mensajes (hook w))) ->
    NoDup (List.map id
             (mensajes
                (hook (snd (alInsertarMensaje useChat.alNuevoMensaje
                              payload w)))))
    /\ NoDup (List.map id
                (mensajes
                   (hook (snd (useChatMas.eliminarMensaje delete_mensaje
                                 mensajeId w))))).
Proof.
  intros payload delete_mensaje mensajeId w H. split.
  - destruct (relay_con_hook payload w) as (f & _ & _ & _ & Em & Ef).
    rewrite Em, Ef.
    destruct (select_por_id (backend w) (new_id payload)) as [[d|] [e|]|e];
      try (apply agregar_NoDup); exact H.
  - destruct (eliminarMensaje_forma delete_mensaje mensajeId w)
      as (_ & E2 & _).
    rewrite E2. destruct (fallo (delete_mensaje mensajeId)); [exact H|].
    apply filter_ids_NoDup, H.
Qed.

Lemma ids_distintos_witness :
  NoDup (List.map id
           (mensajes
              (hook (snd (alInsertarMensaje useChat.alNuevoMensaje
                            Ejemplos.evento_m9
                            (Ejemplos.mundo (Ejemplos.servidor None))))))).
Proof.
  apply (ids_distintos Ejemplos.evento_m9 (fun _ => Responde tt None) "m9"
           (Ejemplos.mundo (Ejemplos.servidor None))).
  constructor.
Defined.

(** X12.  A message that the initial load already brought is not added
    again when the relay delivers its INSERT: after [cargarMensajes] got
    the rows [data], a delivery for an identifier among them, with the
    fetch by identifier answering that row or failing, leaves the list as
    the load left it. *)
Theorem cargado_y_entregado :
  forall (payload : Payload) (w : Mundo) (data : list Fila),
    select_recientes (backend w) 50 = Responde (Some data) None ->
    In (new_id payload) (List.map fila_id data) ->
    atiende_por_id (backend w) (new_id payload) ->
    let w1 := snd (useChat.cargarMensajes w) in
    let w2 := snd (alInsertarMensaje useChat.alNuevoMensaje payload w1) in
    mensajes (hook w1) = rev (List.map formatear data)
    /\ mensajes (hook w2) = mensajes (hook w1).
Proof.
  intros payload w data Hsel Hin Hat w1 w2.
  assert (Hw1 : backend w1 = backend w
                /\ mensajes (hook w1) = rev (List.map formatear data)).
  { subst w1. unfold useChat.cargarMensajes, useChat.setCargando,
      useChat.setMensajes, obtenerMensajes, limite_por_defecto, actualizar,
      intentar, bind, esperar, console_error. simpl.
    rewrite Hsel. simpl. split; reflexivity. }
  destruct Hw1 as [Hb Em].
  split; [exact Em|].
  destruct (relay_con_hook payload w1) as (f & _ & _ & _ & Em2 & Ef).
  fold w2 in Em2. rewrite Em2, Ef, Hb.
  assert (Hv : veces (new_id payload) (mensajes (hook w1)) <> 0%nat).
  { intros Hv. apply veces_cero in Hv. apply Hv. rewrite Em.
    rewrite <- map_rev, map_map. simpl.
    rewrite map_rev. apply in_rev. rewrite rev_involutive. exact Hin. }
  unfold atiende_por_id in Hat.
  destruct (select_por_id (backend w) (new_id payload)) as [[d|] [e|]|e];
    try reflexivity;
    try (apply (agregar_presente (mensajeFallback payload)); exact Hv).
  apply agregar_presente. simpl. rewrite Hat. exact Hv.
Qed.

Lemma cargado_y_entregado_witness :
  List.map id
    (mensajes
       (hook
          (snd (alInsertarMensaje useChat.alNuevoMensaje
                  (mkPayload "m3" (de_ascii "hola") "u-ana" 30)
                  (snd (useChat.cargarMensajes
                          (Ejemplos.mundo (Ejemplos.servidor None))))))))
  = ["m1"; "m2"; "m3"; "m4"].
Proof.
  destruct (cargado_y_entregado
              (mkPayload "m3" (de_ascii "hola") "u-ana" 30)
              (Ejemplos.mundo (Ejemplos.servidor None))
              (Servidor.ordenar_desc Ejemplos.tabla)
              eq_refl) as [E1 E2].
  - simpl. tauto.
  - reflexivity.
  - rewrite E2, E1. reflexivity.
Defined.

End ListaMensajes.


(* ===================================================================== *)
(** ** The message channel and the outbound typing signal *)
(* ===================================================================== *)

Section CanalYTeclado.
Import ChatUseCase ChatUseCaseMas.

Lemma remove_ultimo (canal : Canal) (l : list Canal) :
  ~ In canal l -> remove Nat.eq_dec canal (l ++ [canal]) = l.
Proof.
  intros H. rewrite remove_app. simpl.
  destruct (Nat.eq_dec canal canal); [|contradiction].
  rewrite app_nil_r. apply notin_remove, H.
Qed.

(** X13.  Subscribing to the messages on a channel the client was not
    subscribed on and then calling the returned function leaves the field
    empty and the subscribed channels as they were; calling the returned
    function once more changes nothing. *)
Theorem canal_ida_y_vuelta :
  forall (canal : Canal) (c : Canales),
    ~ In canal (escuchando c) ->
    desuscribirMensajes (suscribirseAMensajes canal c)
    = mkCanales None (escuchando c)
    /\ desuscribirMensajes
         (desuscribirMensajes (suscribirseAMensajes canal c))
       = desuscribirMensajes (suscribirseAMensajes canal c).
Proof.
  intros canal c H.
  assert (E : desuscribirMensajes (suscribirseAMensajes canal c)
              = mkCanales None (escuchando c)).
  { unfold desuscribirMensajes, suscribirseAMensajes. simpl.
    rewrite remove_ultimo by exact H. reflexivity. }
  split; [exact E|]. rewrite E. reflexivity.
Qed.

Lemma canal_ida_y_vuelta_witness :
  desuscribirMensajes (suscribirseAMensajes 7%nat sin_canales) = sin_canales.
Proof.
  apply (canal_ida_y_vuelta 7%nat sin_canales). simpl. tauto.
Defined.

(** X14.  The returned function removes the channel the field holds when
    it is called, not the channel of its own subscription.  After two
    subscriptions on different channels without a teardown in between,
    running both returned functions removes only the second channel: the
    first stays subscribed with the field empty, and an INSERT still runs
    its handler, which fetches the message and hands it to the callback. *)
Theorem canal_olvidado :
  forall (c1 c2 : Canal) (payload : Payload) (w : Mundo),
    c1 <> c2 ->
    let c := desuscribirMensajes
               (desuscribirMensajes
                  (suscribirseAMensajes c2
                     (suscribirseAMensajes c1 sin_canales))) in
    channelMensajes c = None
    /\ escuchando c = [c1]
    /\ despachar useChat.alNuevoMensaje payload (escuchando c) w
       = (Valor tt, snd (alInsertarMensaje useChat.alNuevoMensaje payload w))
    /\ peticiones
         (snd (despachar useChat.alNuevoMensaje payload (escuchando c) w))
       = peticiones w ++ [SelectPorId (new_id payload)].
Proof.
  intros c1 c2 payload w H c.
  assert (E : c = mkCanales None [c1]).
  { subst c. unfold desuscribirMensajes, suscribirseAMensajes. simpl.
    destruct (Nat.eq_dec c2 c1) as [Heq|_]; [congruence|].
    destruct (Nat.eq_dec c2 c2); [reflexivity | contradiction]. }
  rewrite E. cbn [channelMensajes escuchando].
  destruct (relay_con_hook payload w) as (f & E1 & _ & Ep & _).
  split; [reflexivity|]. split; [reflexivity|].
  assert (Ed : despachar useChat.alNuevoMensaje payload [c1] w
               = (Valor tt,
                  snd (alInsertarMensaje useChat.alNuevoMensaje payload w))).
  { simpl. unfold bind, intentar, ret.
    destruct (alInsertarMensaje useChat.alNuevoMensaje payload w)
      as [[[]|e] w1]; simpl in *; [reflexivity | discriminate]. }
  split; [exact Ed|]. rewrite Ed. exact Ep.
Qed.

Lemma canal_olvidado_witness :
  escuchando
    (desuscribirMensajes
       (desuscribirMensajes
          (suscribirseAMensajes 2%nat
             (suscribirseAMensajes 1%nat sin_canales))))
  = [1%nat].
Proof.
  assert (H : 1%nat <> 2%nat) by discriminate.
  destruct (canal_olvidado 1%nat 2%nat Ejemplos.evento_m9
              (Ejemplos.mundo (Ejemplos.servidor None)) H)
    as (_ & E & _).
  exact E.
Defined.

(** [enviarEventoEscritura(true)] with a user in the session. *)
Lemma enviarEventoEscritura_con_sesion (w : Mundo) (user : User)
      (e : option ErrorJS) :
  auth_getUser (backend w) = Responde (Some user) e ->
  fst (enviarEventoEscritura true w) = Valor tt
  /\ backend (snd (enviarEventoEscritura true w)) = backend w
  /\ hook (snd (enviarEventoEscritura true w)) = hook w
  /\ inserts_de_escritura (peticiones (snd (enviarEventoEscritura true w)))
     = inserts_de_escritura (peticiones w) ++ [InsertEscritura (user_id user)].
Proof.
  intros Ha.
  unfold enviarEventoEscritura, intentar, bind, esperar, console_log,
    console_error, inserts_de_escritura.
  rewrite Ha. simpl.
  destruct (insert_escritura (backend w) (user_id user)) as [[] [e1|]|e1];
    simpl; rewrite ?filter_app; simpl; rewrite ?filter_app; simpl;
    rewrite ?app_nil_r; repeat split.
Qed.

(** One change of the input, with a user in the session. *)
Lemma cambiarInput_paso (texto : cadena) (w : Mundo) (user : User)
      (e : option ErrorJS) :
  auth_getUser (backend w) = Responde (Some user) e ->
  fst (useChatMas.cambiarInput texto w) = Valor tt
  /\ backend (snd (useChatMas.cambiarInput texto w)) = backend w
  /\ inputTexto (hook (snd (useChatMas.cambiarInput texto w))) = texto
  /\ inserts_de_escritura (peticiones (snd (useChatMas.cambiarInput texto w)))
     = inserts_de_escritura (peticiones w)
         ++ repeat (InsertEscritura (user_id user))
                   (pulsaciones (inputTexto (hook w)) [texto]).
Proof.
  intros Ha. unfold useChatMas.cambiarInput. simpl.
  destruct (list_eq_dec N.eq_dec (inputTexto (hook w)) texto) as [Heq|Hne].
  - simpl. rewrite app_nil_r. auto.
  - unfold bind, useChat.setInputTexto, actualizar,
      useChatMas.efectoEscritura. simpl.
    destruct (JS.no (trim texto)) eqn:Eb; simpl.
    + rewrite app_nil_r. repeat split.
    + unfold useChatMas.iniciarEscritura, bind, actualizar.
      match goal with |- context [enviarEventoEscritura true ?w1] =>
        destruct (enviarEventoEscritura_con_sesion w1 user e Ha)
          as (E1 & Hb & E2 & E3);
        destruct (enviarEventoEscritura true w1) as [res w2] end.
      simpl in E1, Hb, E2, E3. subst res. simpl.
      rewrite E2. simpl. repeat split; assumption.
Qed.

(** X15.  Outbound typing signals are not coalesced.  With a user in the
    session, every change of the input that stores a text that is not
    blank sends one insert against [indicadores_escritura] under that
    user's id, whether or not an earlier one is still within its timer;
    a change to a blank text, or to the text already stored, sends none.
    Typing never throws, also when the backend refuses the inserts. *)
Theorem teclear_envia :
  forall (textos : list cadena) (w : Mundo) (user : User)
         (e : option ErrorJS),
    auth_getUser (backend w) = Responde (Some user) e ->
    fst (useChatMas.teclear textos w) = Valor tt
    /\ inputTexto (hook (snd (useChatMas.teclear textos w)))
       = last textos (inputTexto (hook w))
    /\ inserts_de_escritura (peticiones (snd (useChatMas.teclear textos w)))
       = inserts_de_escritura (peticiones w)
           ++ repeat (InsertEscritura (user_id user))
                     (pulsaciones (inputTexto (hook w)) textos).
Proof.
  induction textos as [|texto resto IH]; intros w user e Ha.
  - simpl. rewrite app_nil_r. auto.
  - change (useChatMas.teclear (texto :: resto))
      with (bind (useChatMas.cambiarInput texto)
                 (fun _ => useChatMas.teclear resto)).
    unfold bind.
    destruct (cambiarInput_paso texto w user e Ha) as (E1 & Eb & Ei & Ep).
    destruct (useChatMas.cambiarInput texto w) as [res w1].
    simpl in E1, Eb, Ei, Ep. subst res.
    assert (Ha1 : auth_getUser (backend w1) = Responde (Some user) e)
      by (rewrite Eb; exact Ha).
    destruct (IH w1 user e Ha1) as (F1 & Fi & Fp).
    split; [exact F1|]. split.
    + rewrite Fi, Ei. symmetry. apply EscrituraFacts.last_cons.
    + rewrite Fp, Ep, Ei. rewrite <- app_assoc, <- repeat_app.
      simpl. rewrite Nat.add_0_r. reflexivity.
Qed.

Lemma teclear_envia_witness :
  inserts_de_escritura
    (peticiones
       (snd (useChatMas.teclear
               [de_ascii "h"; de_ascii "ho"; de_ascii "ho"; de_ascii " ";
                de_ascii "hola"]
               (Ejemplos.mundo (Ejemplos.caido (Some Ejemplos.ana))))))
  = [InsertEscritura "u-ana"; InsertEscritura "u-ana";
     InsertEscritura "u-ana"].
Proof.
  destruct (teclear_envia
              [de_ascii "h"; de_ascii "ho"; de_ascii "ho"; de_ascii " ";
               de_ascii "hola"]
              (Ejemplos.mundo (Ejemplos.caido (Some Ejemplos.ana)))
              Ejemplos.ana None eq_refl) as (_ & _ & E).
  rewrite E. reflexivity.
Defined.

End CanalYTeclado.
